(** * Rootless versus rootful evaluator: scoring and aggregation engine

    A shallow embedding of [evaluate_metrics.py]: the score normaliser
    [compute_score], the per-repetition aggregation loop of [main], the
    verdict classification and the cross-repetition summary.

    Numbers.  Python floats are modelled by the type [float] below: an exact
    rational, or one of the three IEEE special values that a Prometheus
    sample can carry ("+Inf", "-Inf", "NaN") and that [float(value)] parses.
    Arithmetic on finite values is exact: rounding, overflow, underflow and
    the sign of zero are outside the model.  The special values follow
    IEEE 754, and a division by zero raises, as [ZeroDivisionError] does in
    Python.

    Exceptions are modelled by [option]: [None] stands for a raised
    exception, which nothing in the program catches. *)

From Stdlib Require Import QArith Qabs Lqa Lia ZArith List String Ascii Bool.
From Stdlib Require Import Permutation.
Import ListNotations.

Local Open Scope string_scope.
Local Open Scope Q_scope.

(** ** The option monad, for exceptions *)

Definition bind {A B : Type} (m : option A) (k : A -> option B) : option B :=
  match m with
  | Some a => k a
  | None => None
  end.

Notation "x <- m ;; k" := (bind m (fun x => k))
  (at level 61, m at next level, right associativity).
Notation "' p <- m ;; k" := (bind m (fun x => let p := x in k))
  (at level 61, p pattern, m at next level, right associativity).

(** ** Floats *)

Inductive float : Type :=
| Fin (q : Q)
| PInf
| NInf
| NaN.

Declare Scope float_scope.
Delimit Scope float_scope with float.
Bind Scope float_scope with float.

Definition Qltb (a b : Q) : bool :=
  match a ?= b with
  | Lt => true
  | _ => false
  end.

(** [-x] *)
Definition fopp (x : float) : float :=
  match x with
  | Fin q => Fin (- q)
  | PInf => NInf
  | NInf => PInf
  | NaN => NaN
  end.

(** [abs(x)] *)
Definition fabs (x : float) : float :=
  match x with
  | Fin q => Fin (Qabs q)
  | PInf | NInf => PInf
  | NaN => NaN
  end.

(** [x + y]: the sum of the two infinities is NaN. *)
Definition fadd (x y : float) : float :=
  match x, y with
  | NaN, _ | _, NaN => NaN
  | PInf, NInf | NInf, PInf => NaN
  | PInf, _ | _, PInf => PInf
  | NInf, _ | _, NInf => NInf
  | Fin a, Fin b => Fin (a + b)
  end.

(** [x - y] *)
Definition fsub (x y : float) : float := fadd x (fopp y).

(** An infinity times or divided by a finite value [a]: the sign follows the
    sign of [a]; the product with zero is NaN. *)
Definition inf_times (positive : bool) (a : Q) : float :=
  match a ?= 0 with
  | Eq => NaN
  | Gt => if positive then PInf else NInf
  | Lt => if positive then NInf else PInf
  end.

(** [x * y] *)
Definition fmul (x y : float) : float :=
  match x, y with
  | NaN, _ | _, NaN => NaN
  | PInf, PInf | NInf, NInf => PInf
  | PInf, NInf | NInf, PInf => NInf
  | PInf, Fin a | Fin a, PInf => inf_times true a
  | NInf, Fin a | Fin a, NInf => inf_times false a
  | Fin a, Fin b => Fin (a * b)
  end.

(** [x / y]; [None] is the [ZeroDivisionError] that Python raises, for
    every [x], when [y] is zero. *)
Definition fdiv (x y : float) : option float :=
  match y with
  | Fin b =>
      if Qeq_bool b 0 then None
      else Some match x with
                | Fin a => Fin (a / b)
                | PInf => inf_times true b
                | NInf => inf_times false b
                | NaN => NaN
                end
  | PInf | NInf =>
      Some match x with
           | Fin _ => Fin 0
           | _ => NaN
           end
  | NaN => Some NaN
  end.

(** [x == y], [x < y], [x <= y], [x > y], [x >= y]: every comparison with
    NaN is false. *)
Definition feqb (x y : float) : bool :=
  match x, y with
  | Fin a, Fin b => Qeq_bool a b
  | PInf, PInf | NInf, NInf => true
  | _, _ => false
  end.

Definition fltb (x y : float) : bool :=
  match x, y with
  | NaN, _ | _, NaN => false
  | Fin a, Fin b => Qltb a b
  | PInf, _ | NInf, NInf | Fin _, NInf => false
  | NInf, (Fin _ | PInf) | Fin _, PInf => true
  end.

Definition fleb (x y : float) : bool :=
  match x, y with
  | NaN, _ | _, NaN => false
  | Fin a, Fin b => Qle_bool a b
  | NInf, _ | Fin _, PInf | PInf, PInf => true
  | PInf, (Fin _ | NInf) | Fin _, NInf => false
  end.

Definition fgtb (x y : float) : bool := fltb y x.
Definition fgeb (x y : float) : bool := fleb y x.

Infix "+" := fadd : float_scope.
Infix "-" := fsub : float_scope.
Infix "*" := fmul : float_scope.
Notation "- x" := (fopp x) : float_scope.
Infix "==?" := feqb (at level 70, no associativity) : float_scope.
Infix "<?" := fltb : float_scope.
Infix "<=?" := fleb : float_scope.
Infix ">?" := fgtb (at level 70, no associativity) : float_scope.
Infix ">=?" := fgeb (at level 70, no associativity) : float_scope.

Definition is_nan (x : float) : bool :=
  match x with
  | NaN => true
  | _ => false
  end.

(** ** Python built-ins *)

(** [min(a, b)] and [max(a, b)]: the first argument is kept unless the
    second is strictly smaller (strictly larger). *)
Definition py_min (a b : float) : float := if (b <? a)%float then b else a.
Definition py_max (a b : float) : float := if (b >? a)%float then b else a.

(** [min(xs)] and [max(xs)] on a list with first element [x]. *)
Definition py_min_list (x : float) (xs : list float) : float :=
  fold_left py_min xs x.
Definition py_max_list (x : float) (xs : list float) : float :=
  fold_left py_max xs x.

(** [sum(xs)]: the additions run from the left, starting at 0. *)
Definition py_sum (xs : list float) : float := fold_left fadd xs (Fin 0).

(** [len(xs)], as the float it becomes in a division. *)
Definition py_len (xs : list float) : float :=
  Fin (inject_Z (Z.of_nat (List.length xs))).

(** [x ** 2] *)
Definition square (x : float) : float := (x * x)%float.

(** [v or 0.0]: [None] and zero are falsy, every other float (NaN too) is
    truthy. *)
Definition or_zero (v : option float) : float :=
  match v with
  | None => Fin 0
  | Some x => if (x ==? Fin 0)%float then Fin 0 else x
  end.

(** [d[k] = v] on a dict, kept in insertion order: an existing key keeps its
    position and takes the new value, a new key goes to the end. *)
Fixpoint dict_set {V : Type} (d : list (string * V)) (k : string) (v : V)
  : list (string * V) :=
  match d with
  | [] => [(k, v)]
  | (k', v') :: d' =>
      if String.eqb k' k then (k', v) :: d' else (k', v') :: dict_set d' k v
  end.

(** [d.get(k)] *)
Fixpoint dict_get {V : Type} (d : list (string * V)) (k : string) : option V :=
  match d with
  | [] => None
  | (k', v) :: d' => if String.eqb k' k then Some v else dict_get d' k
  end.

(** ** The score normaliser *)

(** [compute_score(rootless, rootful, weight, direction)]; the result is the
    pair [(rel, score * weight)]. *)
Definition compute_score (rootless rootful weight : float) (direction : string)
  : option (float * float) :=
  let denom := (fabs rootless + fabs rootful)%float in
  rel <- (if (denom ==? Fin 0)%float then Some (Fin 0)
          else
            half <- fdiv denom (Fin 2) ;;
            rel <- fdiv (rootless - rootful)%float half ;;
            Some (py_max (Fin (-1)) (py_min (Fin 1) rel))) ;;
  let rel := if String.eqb direction "lower" then (- rel)%float else rel in
  let score := (Fin 50 + rel * Fin 50)%float in
  let score := py_max (Fin 0) (py_min (Fin 100) score) in
  Some (rel, (score * weight)%float).

(** ** Configuration and report records *)

Module Config.

(** One entry of [cfg["metrics"]]; [weight] and [direction] are optional
    keys, read with [spec.get]. *)
Record metric : Type := {
  query : string;
  weight : option float;
  direction : option string
}.

End Config.

(** [cfg["thresholds"]] *)
Record ThresholdSet : Type := {
  strong_rootless : float;
  mild_rootless : float;
  strong_rootful : float;
  mild_rootful : float
}.

Inductive Verdict : Type :=
| StrongRootless
| MildRootless
| StrongRootful
| MildRootful
| Inconclusive.

Definition verdict_str (v : Verdict) : string :=
  match v with
  | StrongRootless => "strong prefer rootless"
  | MildRootless => "mild prefer rootless"
  | StrongRootful => "strong prefer rootful"
  | MildRootful => "mild prefer rootful"
  | Inconclusive => "inconclusive"
  end.

(** One entry of [rep_metrics]; a key that a branch of the loop does not
    write is [None]. *)
Record MetricResult : Type := {
  rootless_value : option float;
  rootful_value : option float;
  direction : string;
  weight : float;
  included : bool;
  reason : option string;
  normalized_delta : option float;
  weighted_score_contrib : option float
}.

(** One entry of [runs]. *)
Record RepetitionResult : Type := {
  rep : Z;
  timestamp : Z;
  metrics : list (string * MetricResult);
  weighted_score : float;
  verdict : Verdict;
  effective_weight : float
}.

(** The [summary] of the report. *)
Record Summary : Type := {
  rootless_target : string;
  rootful_target : string;
  repetitions : Z;
  mean_weighted_score : float;
  stddev_weighted_score : float;
  min_weighted_score : float;
  max_weighted_score : float;
  thresholds : ThresholdSet;
  final_verdict : Verdict
}.

Record Report : Type := {
  compared_at : Z;
  summary : Summary;
  runs : list RepetitionResult
}.

(** ** One repetition *)

(** The sample fetcher: [prom_query(prom_url, with_container(q, name))] as a
    function of the base query [q] and of the container [name].  [None] is
    an exception raised by the request or by the construction of the query;
    otherwise the result is the pair [(value, ok)] that [prom_query]
    returns. *)
Definition fetcher : Type := string -> string -> option (option float * bool).

(** The variables that the loop over the metrics updates. *)
Record LoopState : Type := {
  rep_metrics : list (string * MetricResult);
  total_weight : float;
  weighted_sum : float
}.

Definition loop_init : LoopState :=
  {| rep_metrics := []; total_weight := Fin 0; weighted_sum := Fin 0 |}.

(** [float(spec.get("weight", 0.0))] *)
Definition weight_of (spec : Config.metric) : float :=
  match Config.weight spec with
  | Some w => w
  | None => Fin 0
  end.

(** [spec.get("direction", "higher")] *)
Definition direction_of (spec : Config.metric) : string :=
  match Config.direction spec with
  | Some d => d
  | None => "higher"
  end.

(** The body of [for name, spec in metrics.items()]. *)
Definition loop_body (fetch : fetcher) (rootless_name rootful_name : string)
    (st : LoopState) (item : string * Config.metric) : option LoopState :=
  let '(name, spec) := item in
  let q := Config.query spec in
  let weight := weight_of spec in
  let direction := direction_of spec in
  '(rl_val, rl_ok) <- fetch q rootless_name ;;
  '(rf_val, rf_ok) <- fetch q rootful_name ;;
  if negb (rl_ok && rf_ok) then
    Some {| rep_metrics :=
              dict_set (rep_metrics st) name
                {| rootless_value := rl_val;
                   rootful_value := rf_val;
                   direction := direction;
                   weight := weight;
                   included := false;
                   reason := Some "missing series";
                   normalized_delta := None;
                   weighted_score_contrib := None |};
            total_weight := total_weight st;
            weighted_sum := weighted_sum st |}
  else
    '(rel, weighted) <-
       compute_score (or_zero rl_val) (or_zero rf_val) weight direction ;;
    Some {| rep_metrics :=
              dict_set (rep_metrics st) name
                {| rootless_value := rl_val;
                   rootful_value := rf_val;
                   direction := direction;
                   weight := weight;
                   included := true;
                   reason := None;
                   normalized_delta := Some rel;
                   weighted_score_contrib := Some weighted |};
            total_weight := (total_weight st + weight)%float;
            weighted_sum := (weighted_sum st + weighted)%float |}.

Fixpoint loop (fetch : fetcher) (rootless_name rootful_name : string)
    (st : LoopState) (items : list (string * Config.metric))
  : option LoopState :=
  match items with
  | [] => Some st
  | item :: rest =>
      st' <- loop_body fetch rootless_name rootful_name st item ;;
      loop fetch rootless_name rootful_name st' rest
  end.

(** [weighted_sum / total_weight] if [total_weight > 0], else [50.0]. *)
Definition aggregate (st : LoopState) : option float :=
  if (total_weight st >? Fin 0)%float
  then fdiv (weighted_sum st) (total_weight st)
  else Some (Fin 50).

(** The chain of comparisons that maps the score to a verdict. *)
Definition classify (thresholds : ThresholdSet) (weighted_score : float)
  : Verdict :=
  if (weighted_score >=? strong_rootless thresholds)%float then StrongRootless
  else if (weighted_score >=? mild_rootless thresholds)%float then MildRootless
  else if (weighted_score <=? strong_rootful thresholds)%float then StrongRootful
  else if (weighted_score <=? mild_rootful thresholds)%float then MildRootful
  else Inconclusive.

(** The body of [for rep in range(args.reps)], up to [runs.append]; [rep] is
    the loop index and [now] the value of [int(time.time())]. *)
Definition run_repetition (fetch : fetcher) (rootless_name rootful_name : string)
    (metrics : list (string * Config.metric)) (thresholds : ThresholdSet)
    (rep : Z) (now : Z) : option RepetitionResult :=
  st <- loop fetch rootless_name rootful_name loop_init metrics ;;
  weighted_score <- aggregate st ;;
  Some {| rep := (rep + 1)%Z;
          timestamp := now;
          metrics := rep_metrics st;
          weighted_score := weighted_score;
          verdict := classify thresholds weighted_score;
          effective_weight := total_weight st |}.

(** ** The summary over the repetitions *)

(** [sum(scores) / len(scores) if scores else 50.0] *)
Definition mean_of (scores : list float) : option float :=
  match scores with
  | [] => Some (Fin 50)
  | _ :: _ => fdiv (py_sum scores) (py_len scores)
  end.

(** [sum((s - mean_score) ** 2 for s in scores) / len(scores) if scores
    else 0.0] *)
Definition variance_of (mean_score : float) (scores : list float)
  : option float :=
  match scores with
  | [] => Some (Fin 0)
  | _ :: _ =>
      fdiv (py_sum (map (fun s => square (s - mean_score)%float) scores))
           (py_len scores)
  end.

(** Lines 175 to 190 of [main]: the summary computed from [runs].  The
    square root has no exact value on the rationals: [pow_half] stands for
    [x ** 0.5], and the summary is parametric in it. *)
Definition summarize (pow_half : float -> float)
    (rootless_name rootful_name : string) (reps : Z)
    (thresholds : ThresholdSet) (runs : list RepetitionResult)
  : option Summary :=
  let scores := map weighted_score runs in
  mean_score <- mean_of scores ;;
  variance <- variance_of mean_score scores ;;
  let stddev := pow_half variance in
  Some {| rootless_target := rootless_name;
          rootful_target := rootful_name;
          repetitions := reps;
          mean_weighted_score := mean_score;
          stddev_weighted_score := stddev;
          min_weighted_score :=
            match scores with
            | [] => Fin 50
            | s :: rest => py_min_list s rest
            end;
          max_weighted_score :=
            match scores with
            | [] => Fin 50
            | s :: rest => py_max_list s rest
            end;
          thresholds := thresholds;
          final_verdict :=
            match runs with
            | [] => Inconclusive
            | r :: rest => verdict (last rest r)
            end |}.

(** The loop [for rep in range(args.reps)], from the index [i] on:
    repetition [i] reads its samples through [fetch_at i] and its timestamp
    from [clock i]. *)
Fixpoint repeat_from (fetch_at : nat -> fetcher) (clock : nat -> Z)
    (rootless_name rootful_name : string)
    (metrics : list (string * Config.metric)) (thresholds : ThresholdSet)
    (i count : nat) : option (list RepetitionResult) :=
  match count with
  | O => Some []
  | S count' =>
      r <- run_repetition (fetch_at i) rootless_name rootful_name
             metrics thresholds (Z.of_nat i) (clock i) ;;
      rs <- repeat_from fetch_at clock rootless_name rootful_name
              metrics thresholds (S i) count' ;;
      Some (r :: rs)
  end.

(** The part of [main] between the configuration and the output file:
    [reps] repetitions, then the summary; [final_time] is the clock when the
    report is assembled. *)
Definition evaluate (pow_half : float -> float) (fetch_at : nat -> fetcher)
    (clock : nat -> Z) (final_time : Z) (rootless_name rootful_name : string)
    (metrics : list (string * Config.metric)) (thresholds : ThresholdSet)
    (reps : Z) : option Report :=
  runs <- repeat_from fetch_at clock rootless_name rootful_name
            metrics thresholds 0 (Z.to_nat reps) ;;
  summary <- summarize pow_half rootless_name rootful_name reps thresholds runs ;;
  Some {| compared_at := final_time; summary := summary; runs := runs |}.

(** ** Notions used in the statements *)

(** The same value: finite values up to equality of fractions. *)
Definition feq (x y : float) : Prop :=
  match x, y with
  | Fin a, Fin b => a == b
  | PInf, PInf | NInf, NInf | NaN, NaN => True
  | _, _ => False
  end.

(** Two computations that raise together or return the same value. *)
Definition opt_feq (x y : option float) : Prop :=
  match x, y with
  | Some a, Some b => feq a b
  | None, None => True
  | _, _ => False
  end.

(** A configured weight that is a number [>= 0]. *)
Definition nonneg (w : float) : Prop :=
  match w with
  | Fin q => 0 <= q
  | _ => False
  end.

(** How far a verdict leans towards rootless. *)
Definition rootless_rank (v : Verdict) : nat :=
  match v with
  | StrongRootful => 0
  | MildRootful => 1
  | Inconclusive => 2
  | MildRootless => 3
  | StrongRootless => 4
  end.

(** Both fetches of the metric returned. *)
Definition fetched (fetch : fetcher) (rootless_name rootful_name : string)
    (spec : Config.metric) : Prop :=
  fetch (Config.query spec) rootless_name <> None /\
  fetch (Config.query spec) rootful_name <> None.

(** Both fetches of the metric returned with [ok = True]. *)
Definition both_ok (fetch : fetcher) (rootless_name rootful_name : string)
    (item : string * Config.metric) : bool :=
  match fetch (Config.query (snd item)) rootless_name,
        fetch (Config.query (snd item)) rootful_name with
  | Some (_, rl_ok), Some (_, rf_ok) => rl_ok && rf_ok
  | _, _ => false
  end.

(** The formulas of the summary, as the specification words them: the sum of
    a sequence, its average, and its population variance (the squared
    deviations from the average, divided by the number of elements). *)
Definition total (xs : list float) : float := fold_right fadd (Fin 0) xs.

Definition average (xs : list float) : option float :=
  fdiv (total xs) (py_len xs).

Definition population_variance (xs : list float) : option float :=
  m <- average xs ;;
  fdiv (total (map (fun x => square (x - m)%float) xs)) (py_len xs).

(** [m] is an element of [xs] and no element is below it; when no element
    is NaN, [m] is below or equal to every element. *)
Definition is_minimum (m : float) (xs : list float) : Prop :=
  In m xs /\
  (forall x, In x xs -> (x <? m)%float = false) /\
  (Forall (fun x => is_nan x = false) xs ->
   forall x, In x xs -> (m <=? x)%float = true).

Definition is_maximum (m : float) (xs : list float) : Prop :=
  In m xs /\
  (forall x, In x xs -> (x >? m)%float = false) /\
  (Forall (fun x => is_nan x = false) xs ->
   forall x, In x xs -> (m >=? x)%float = true).

(** ** The program in pieces *)

(** The normalised delta before the direction is applied: the first six
    lines of the body of [compute_score]. *)
Definition clamped_rel (rootless rootful : float) : option float :=
  let denom := (fabs rootless + fabs rootful)%float in
  if (denom ==? Fin 0)%float then Some (Fin 0)
  else
    half <- fdiv denom (Fin 2) ;;
    rel <- fdiv (rootless - rootful)%float half ;;
    Some (py_max (Fin (-1)) (py_min (Fin 1) rel)).

(** The score before weighting, from the delta after the direction. *)
Definition score_of (rel : float) : float :=
  py_max (Fin 0) (py_min (Fin 100) (Fin 50 + rel * Fin 50)%float).

(** The entry that the loop body writes for one metric; [None] when a fetch
    raises. *)
Definition entry_of (fetch : fetcher) (rootless_name rootful_name : string)
    (spec : Config.metric) : option MetricResult :=
  '(rl_val, rl_ok) <- fetch (Config.query spec) rootless_name ;;
  '(rf_val, rf_ok) <- fetch (Config.query spec) rootful_name ;;
  if negb (rl_ok && rf_ok) then
    Some {| rootless_value := rl_val;
            rootful_value := rf_val;
            direction := direction_of spec;
            weight := weight_of spec;
            included := false;
            reason := Some "missing series";
            normalized_delta := None;
            weighted_score_contrib := None |}
  else
    '(rel, weighted) <-
       compute_score (or_zero rl_val) (or_zero rf_val)
         (weight_of spec) (direction_of spec) ;;
    Some {| rootless_value := rl_val;
            rootful_value := rf_val;
            direction := direction_of spec;
            weight := weight_of spec;
            included := true;
            reason := None;
            normalized_delta := Some rel;
            weighted_score_contrib := Some weighted |}.

(** The state after the loop body has written the entry [e]. *)
Definition record_entry (st : LoopState) (name : string) (e : MetricResult)
  : LoopState :=
  {| rep_metrics := dict_set (rep_metrics st) name e;
     total_weight :=
       if included e then (total_weight st + weight e)%float
       else total_weight st;
     weighted_sum :=
       match weighted_score_contrib e with
       | Some c => (weighted_sum st + c)%float
       | None => weighted_sum st
       end |}.

Definition record_all (es : list (string * MetricResult)) (st : LoopState)
  : LoopState :=
  fold_left (fun st ne => record_entry st (fst ne) (snd ne)) es st.

(** The entries of all the metrics, in order; [None] when a fetch raises. *)
Fixpoint entries (fetch : fetcher) (rootless_name rootful_name : string)
    (items : list (string * Config.metric))
  : option (list (string * MetricResult)) :=
  match items with
  | [] => Some []
  | (name, spec) :: rest =>
      e <- entry_of fetch rootless_name rootful_name spec ;;
      es <- entries fetch rootless_name rootful_name rest ;;
      Some ((name, e) :: es)
  end.

(** The weights and the contributions that a list of entries adds to the
    two sums. *)
Fixpoint added_weights (es : list (string * MetricResult)) : list float :=
  match es with
  | [] => []
  | (_, e) :: rest =>
      if included e then weight e :: added_weights rest
      else added_weights rest
  end.

Fixpoint added_contribs (es : list (string * MetricResult)) : list float :=
  match es with
  | [] => []
  | (_, e) :: rest =>
      match weighted_score_contrib e with
      | Some c => c :: added_contribs rest
      | None => added_contribs rest
      end
  end.

(** The two sums are finite, and [weighted_sum] lies between 0 and
    [100 * total_weight]. *)
Definition sums_in_range (st : LoopState) : Prop :=
  exists a b : Q,
    total_weight st = Fin a /\ weighted_sum st = Fin b /\
    0 <= a /\ 0 <= b <= 100 * a.

(** ** Data of the examples *)

Definition thresholds_example : ThresholdSet :=
  {| strong_rootless := Fin 75; mild_rootless := Fin 60;
     strong_rootful := Fin 25; mild_rootful := Fin 40 |}.

(** Thresholds that leave no room between the two mild verdicts. *)
Definition thresholds_touching : ThresholdSet :=
  {| strong_rootless := Fin 75; mild_rootless := Fin 50;
     strong_rootful := Fin 25; mild_rootful := Fin 50 |}.

Definition cpu_spec : Config.metric :=
  {| Config.query := "cpu_seconds"; Config.weight := Some (Fin 2);
     Config.direction := Some "lower" |}.

Definition mem_spec : Config.metric :=
  {| Config.query := "mem_bytes"; Config.weight := Some (Fin 1);
     Config.direction := None |}.

Definition metrics_example : list (string * Config.metric) :=
  [("cpu", cpu_spec); ("mem", mem_spec)].

(** [cpu] has both samples, 10 and 20; the rootful series of [mem] is
    missing. *)
Definition fetch_example : fetcher :=
  fun q container =>
    if String.eqb q "cpu_seconds" then
      if String.eqb container "rootless" then Some (Some (Fin 10), true)
      else Some (Some (Fin 20), true)
    else
      if String.eqb container "rootless" then Some (Some (Fin 100), true)
      else Some (None, false).

(** Both series of [mem] are there, with the same value. *)
Definition fetch_complete : fetcher :=
  fun q container =>
    if String.eqb q "cpu_seconds" then
      if String.eqb container "rootless" then Some (Some (Fin 10), true)
      else Some (Some (Fin 20), true)
    else Some (Some (Fin 100), true).

(** [x ** 0.5] on the values where it is rational: the root of a fraction
    whose numerator and denominator, in lowest terms, are perfect squares
    (on other fractions, the two roots rounded down). *)
Definition exact_root (x : float) : float :=
  match x with
  | Fin q => Fin (Z.sqrt (Qnum (Qred q)) # Pos.sqrt (Qden (Qred q)))
  | PInf | NInf => PInf
  | NaN => NaN
  end.

Definition result_example (i : Z) (score : float) : RepetitionResult :=
  {| rep := i; timestamp := 0; metrics := [];
     weighted_score := score;
     verdict := classify thresholds_example score;
     effective_weight := Fin 1 |}.

Definition runs_example : list RepetitionResult :=
  [result_example 1 (Fin 60); result_example 2 (Fin 70);
   result_example 3 (Fin 80)].

(** ** The query of one container *)

(** The double quote around the label value. *)
Definition dquote : string := String (Ascii.ascii_of_nat 34) EmptyString.

(** [c in s] for a one-character string [c]. *)
Fixpoint contains (c : Ascii.ascii) (s : string) : bool :=
  match s with
  | EmptyString => false
  | String a s' => Ascii.eqb a c || contains c s'
  end.

(** The split of [s] at the last occurrence of [c], when there is one. *)
Fixpoint split_last (c : Ascii.ascii) (s : string) : option (string * string) :=
  match s with
  | EmptyString => None
  | String a s' =>
      match split_last c s' with
      | Some (h, t) => Some (String a h, t)
      | None => if Ascii.eqb a c then Some (EmptyString, s') else None
      end
  end.

(** [s.rsplit(c, 1)]: the list of the two parts around the last [c], or
    the list of [s] alone when [c] does not occur. *)
Definition rsplit1 (s : string) (c : Ascii.ascii) : list string :=
  match split_last c s with
  | Some (h, t) => [h; t]
  | None => [s]
  end.

(** [a, b = l]: a [ValueError] unless [l] has two elements. *)
Definition unpack2 {A : Type} (l : list A) : option (A * A) :=
  match l with
  | [a; b] => Some (a, b)
  | _ => None
  end.

(** [with_container(base, container)], the function nested in [main]. *)
Definition with_container (base container : string) : option string :=
  if contains "{"%char base then
    '(head, tail) <- unpack2 (rsplit1 base "}"%char) ;;
    Some (head ++ ",container=" ++ dquote ++ container ++ dquote ++ "}" ++ tail)
  else
    Some (base ++ "{container=" ++ dquote ++ container ++ dquote ++ "}").

(** ** The answer of the backend *)

(** A decoded JSON value, as [r.json()] returns it. *)
#[warnings="-register-all"]
Inductive json : Type :=
| JNull
| JBool (b : bool)
| JNum (x : float)
| JStr (s : string)
| JArr (items : list json)
| JObj (fields : list (string * json)).

(** [v.get(k, default)]: an [AttributeError] unless [v] is a dict. *)
Definition py_get (v : json) (k : string) (default : json) : option json :=
  match v with
  | JObj fields =>
      Some match dict_get fields k with
           | Some x => x
           | None => default
           end
  | _ => None
  end.

(** [v[k]] for a string [k]: a [KeyError] on a dict without [k], a
    [TypeError] on every other value. *)
Definition py_item (v : json) (k : string) : option json :=
  match v with
  | JObj fields => dict_get fields k
  | _ => None
  end.

(** [v[i]] for an index [i >= 0]: an element of a list or a character of a
    string, an [IndexError] past the end; a [KeyError] on a dict, whose keys
    are strings, and a [TypeError] on every other value. *)
Definition py_index (v : json) (i : nat) : option json :=
  match v with
  | JArr items => nth_error items i
  | JStr s =>
      match String.get i s with
      | Some c => Some (JStr (String c EmptyString))
      | None => None
      end
  | _ => None
  end.

(** The truth value of [v], as [not v] reads it. *)
Definition truthy (v : json) : bool :=
  match v with
  | JNull => false
  | JBool b => b
  | JNum x => negb (x ==? Fin 0)%float
  | JStr s => negb (String.eqb s EmptyString)
  | JArr items => match items with [] => false | _ => true end
  | JObj fields => match fields with [] => false | _ => true end
  end.

(** [v != s] for a string [s]. *)
Definition differs_from (v : json) (s : string) : bool :=
  match v with
  | JStr s' => negb (String.eqb s' s)
  | _ => true
  end.

(** [float(v)]; [None] is the exception that [prom_query] catches.  The
    reading of a string is the built-in's and is a parameter,
    [parse_float]. *)
Definition py_float (parse_float : string -> option float) (v : json)
  : option float :=
  match v with
  | JStr s => parse_float s
  | JNum x => Some x
  | JBool b => Some (Fin (if b then 1 else 0))
  | _ => None
  end.

(** [prom_query(prom_url, query)].  [http query] is the decoded body of the
    answer to the request, or [None] when [requests.get],
    [raise_for_status] or [r.json()] raises. *)
Definition prom_query (parse_float : string -> option float)
    (http : string -> option json) (query : string)
  : option (option float * bool) :=
  data <- http query ;;
  status <- py_get data "status" JNull ;;
  if differs_from status "success" then None
  else
    inner <- py_get data "data" (JObj []) ;;
    result <- py_get inner "result" (JArr []) ;;
    if negb (truthy result) then Some (None, false)
    else
      sample <- py_index result 0 ;;
      pair <- py_item sample "value" ;;
      value <- py_index pair 1 ;;
      match py_float parse_float value with
      | Some x => Some (Some x, true)
      | None => Some (None, false)
      end.

(** The fetcher of [main]:
    [prom_query(prom_url, with_container(q, name))]. *)
Definition fetch_via (parse_float : string -> option float)
    (http : string -> option json) : fetcher :=
  fun q name =>
    query <- with_container q name ;;
    prom_query parse_float http query.

(** ** The thresholds as a dict *)

(** [thresholds[k]]: a [KeyError] when the key is missing. *)
Definition threshold (thresholds : list (string * float)) (k : string)
  : option float :=
  dict_get thresholds k.

(** The chain of comparisons of [main] on [cfg["thresholds"]] as it is
    loaded: each key is read when its comparison is reached. *)
Definition classify_dict (thresholds : list (string * float))
    (weighted_score : float) : option Verdict :=
  t1 <- threshold thresholds "strong_rootless" ;;
  if (weighted_score >=? t1)%float then Some StrongRootless
  else
    t2 <- threshold thresholds "mild_rootless" ;;
    if (weighted_score >=? t2)%float then Some MildRootless
    else
      t3 <- threshold thresholds "strong_rootful" ;;
      if (weighted_score <=? t3)%float then Some StrongRootful
      else
        t4 <- threshold thresholds "mild_rootful" ;;
        if (weighted_score <=? t4)%float then Some MildRootful
        else Some Inconclusive.

(** The record of the four thresholds of a dict that has them all. *)
Definition thresholds_of (thresholds : list (string * float))
  : option ThresholdSet :=
  t1 <- threshold thresholds "strong_rootless" ;;
  t2 <- threshold thresholds "mild_rootless" ;;
  t3 <- threshold thresholds "strong_rootful" ;;
  t4 <- threshold thresholds "mild_rootful" ;;
  Some {| strong_rootless := t1; mild_rootless := t2;
          strong_rootful := t3; mild_rootful := t4 |}.

(** The last five lines of [prom_query]: the value of the first sample of a
    result that is not empty. *)
Definition read_sample (parse_float : string -> option float) (result : json)
  : option (option float * bool) :=
  sample <- py_index result 0 ;;
  pair <- py_item sample "value" ;;
  value <- py_index pair 1 ;;
  match py_float parse_float value with
  | Some x => Some (Some x, true)
  | None => Some (None, false)
  end.

(** The entry of a scored metric has both raw values, the entry of an
    excluded one lacks a raw value and carries the reason. *)
Definition well_formed_entry (e : MetricResult) : Prop :=
  (included e = true <->
   rootless_value e <> None /\ rootful_value e <> None) /\
  (included e = false -> reason e = Some "missing series").

(** A float that is a number: neither NaN nor an infinity. *)
Definition is_finite (x : float) : bool :=
  match x with
  | Fin _ => true
  | _ => false
  end.

(** The metric with its weight multiplied by [k]. *)
Definition scale_weight (k : Q) (item : string * Config.metric)
  : string * Config.metric :=
  (fst item,
   {| Config.query := Config.query (snd item);
      Config.weight := option_map (fmul (Fin k)) (Config.weight (snd item));
      Config.direction := Config.direction (snd item) |}).

(** The metric has a weight that is not zero. *)
Definition weighs (item : string * Config.metric) : bool :=
  negb (weight_of (snd item) ==? Fin 0)%float.

(** A finite value between [lo] and [hi]. *)
Definition in_range (lo hi : Q) (x : float) : Prop :=
  match x with
  | Fin q => lo <= q <= hi
  | _ => False
  end.

(** ** Data of the further examples *)

(** A reader of unsigned decimal integers, in the place of [float] on
    strings. *)
Fixpoint read_digits (s : string) (acc : Z) : option Z :=
  match s with
  | EmptyString => Some acc
  | String c s' =>
      let n := Ascii.nat_of_ascii c in
      if ((48 <=? n) && (n <=? 57))%nat
      then read_digits s' (10 * acc + Z.of_nat (n - 48))%Z
      else None
  end.

Definition parse_example (s : string) : option float :=
  match s with
  | EmptyString => None
  | _ => option_map (fun z => Fin (inject_Z z)) (read_digits s 0%Z)
  end.

(** An answer of the backend with the samples [values]. *)
Definition answer (values : list string) : json :=
  JObj [("status", JStr "success");
        ("data",
         JObj [("resultType", JStr "vector");
               ("result",
                JArr (map (fun v =>
                             JObj [("metric", JObj []);
                                   ("value", JArr [JNum (Fin 1700000000); JStr v])])
                          values))])].

(** A backend with the sample 10 for [cpu_seconds] and no sample for any
    other metric. *)
Definition http_example (query : string) : option json :=
  if String.prefix "cpu_seconds" query then Some (answer ["10"; "99"])
  else Some (answer []).

(** The thresholds of the examples as a dict, and the same without the key
    of the last comparison. *)
Definition thresholds_dict : list (string * float) :=
  [("strong_rootless", Fin 75); ("mild_rootless", Fin 60);
   ("mild_rootful", Fin 40); ("strong_rootful", Fin 25)].

Definition thresholds_partial : list (string * float) :=
  [("strong_rootless", Fin 75); ("mild_rootless", Fin 60);
   ("strong_rootful", Fin 25)].

(** * Properties *)

(** ** Comparisons *)

Lemma Qltb_true (a b : Q) : Qltb a b = true <-> a < b.
Proof.
  unfold Qltb. rewrite Qlt_alt. destruct (a ?= b); split; congruence.
Qed.

Lemma Qltb_false (a b : Q) : Qltb a b = false <-> b <= a.
Proof.
  rewrite <- Bool.not_true_iff_false, Qltb_true. split; intro H; lra.
Qed.

Lemma Qle_bool_false (a b : Q) : Qle_bool a b = false <-> b < a.
Proof.
  rewrite <- Bool.not_true_iff_false, Qle_bool_iff. split; intro H; lra.
Qed.

Lemma Qeq_bool_false (a b : Q) : Qeq_bool a b = false <-> ~ a == b.
Proof.
  rewrite <- Bool.not_true_iff_false, Qeq_bool_iff. tauto.
Qed.

(** Boolean comparisons of rationals in the context become propositions. *)
Ltac q_props :=
  repeat match goal with
    | H : Qltb _ _ = true |- _ => apply Qltb_true in H
    | H : Qltb _ _ = false |- _ => apply Qltb_false in H
    | H : Qle_bool _ _ = true |- _ => apply Qle_bool_iff in H
    | H : Qle_bool _ _ = false |- _ => apply Qle_bool_false in H
    | H : Qeq_bool _ _ = true |- _ => apply Qeq_bool_iff in H
    | H : Qeq_bool _ _ = false |- _ => apply Qeq_bool_false in H
    end.

Ltac q_goal :=
  match goal with
  | |- Qltb _ _ = true => apply Qltb_true
  | |- Qltb _ _ = false => apply Qltb_false
  | |- Qle_bool _ _ = true => apply Qle_bool_iff
  | |- Qle_bool _ _ = false => apply Qle_bool_false
  | |- Qeq_bool _ _ = true => apply Qeq_bool_iff
  | |- Qeq_bool _ _ = false => apply Qeq_bool_false
  | _ => idtac
  end.

(** Case analysis on the floats of a goal about comparisons. *)
Ltac float_order :=
  intros; unfold fgeb, fgtb in *;
  repeat match goal with
    | x : float |- _ => destruct x
    end;
  simpl in *; try discriminate; try reflexivity; try tauto;
  q_props; q_goal; try lra.

Lemma fleb_trans (x y z : float) :
  (x <=? y)%float = true -> (y <=? z)%float = true -> (x <=? z)%float = true.
Proof. float_order. Qed.

Lemma fltb_irrefl (x : float) : (x <? x)%float = false.
Proof. float_order. Qed.

(** If [x] is not below [a] and [b] is below [a], then [x] is not below
    [b]. *)
Lemma not_below_step (x a b : float) :
  (x <? a)%float = false -> (b <? a)%float = true -> (x <? b)%float = false.
Proof. float_order. Qed.

Lemma not_above_step (x a b : float) :
  (a <? x)%float = false -> (a <? b)%float = true -> (b <? x)%float = false.
Proof. float_order. Qed.

Lemma not_below_fleb (x m : float) :
  is_nan x = false -> is_nan m = false ->
  (x <? m)%float = false -> (m <=? x)%float = true.
Proof. float_order. Qed.

(** ** The same value *)

Lemma feq_refl (x : float) : feq x x.
Proof. destruct x; simpl; auto. reflexivity. Qed.

Lemma feq_trans (x y z : float) : feq x y -> feq y z -> feq x z.
Proof.
  destruct x, y, z; simpl; try tauto. intros H1 H2. now rewrite H1.
Qed.

Lemma inf_times_feq (p : bool) (a b : Q) : a == b -> inf_times p a = inf_times p b.
Proof. intros H. unfold inf_times. now rewrite H. Qed.

Lemma fopp_feq (a a' : float) : feq a a' -> feq (- a)%float (- a')%float.
Proof. destruct a, a'; simpl; try tauto. intros H. now rewrite H. Qed.

Lemma fadd_feq (a a' b b' : float) :
  feq a a' -> feq b b' -> feq (a + b)%float (a' + b')%float.
Proof.
  destruct a, a', b, b'; simpl; try tauto. intros H1 H2. now rewrite H1, H2.
Qed.

Lemma fsub_feq (a a' b b' : float) :
  feq a a' -> feq b b' -> feq (a - b)%float (a' - b')%float.
Proof. intros Ha Hb. apply fadd_feq; [exact Ha | now apply fopp_feq]. Qed.

Lemma fmul_feq (a a' b b' : float) :
  feq a a' -> feq b b' -> feq (a * b)%float (a' * b')%float.
Proof.
  destruct a as [a| | |], a' as [a'| | |]; simpl; try tauto;
    destruct b as [b| | |], b' as [b'| | |]; simpl; try tauto; intros Ha Hb;
    try (rewrite (inf_times_feq _ _ _ Ha); apply feq_refl);
    try (rewrite (inf_times_feq _ _ _ Hb); apply feq_refl).
  now rewrite Ha, Hb.
Qed.

Lemma fdiv_feq (a a' b b' : float) :
  feq a a' -> feq b b' -> opt_feq (fdiv a b) (fdiv a' b').
Proof.
  intros Ha Hb. unfold fdiv.
  destruct b as [b| | |], b' as [b'| | |]; simpl in Hb; try tauto.
  - assert (Hz : Qeq_bool b 0 = Qeq_bool b' 0).
    { destruct (Qeq_bool b 0) eqn:E1, (Qeq_bool b' 0) eqn:E2; q_props;
        try reflexivity; exfalso; rewrite Hb in *; tauto. }
    rewrite Hz. destruct (Qeq_bool b' 0) eqn:E; simpl; [exact I|].
    destruct a, a'; simpl in *; try tauto.
    + q_props. now rewrite Ha, Hb.
    + rewrite (inf_times_feq _ b b' Hb). apply feq_refl.
    + rewrite (inf_times_feq _ b b' Hb). apply feq_refl.
  - destruct a, a'; simpl in *; try tauto. reflexivity.
  - destruct a, a'; simpl in *; try tauto. reflexivity.
Qed.

Lemma fltb_feq (a a' b b' : float) :
  feq a a' -> feq b b' -> (a <? b)%float = (a' <? b')%float.
Proof.
  destruct a, a', b, b'; simpl; try tauto. intros H1 H2.
  unfold Qltb. now rewrite H1, H2.
Qed.

Lemma fleb_feq (a a' b b' : float) :
  feq a a' -> feq b b' -> (a <=? b)%float = (a' <=? b')%float.
Proof.
  destruct a, a', b, b'; simpl; try tauto. intros H1 H2.
  destruct (Qle_bool q q1) eqn:E1, (Qle_bool q0 q2) eqn:E2; q_props;
    try reflexivity; exfalso; rewrite H1, H2 in *; lra.
Qed.

(** ** Sums *)

Lemma fadd_swap (a x y : float) : feq (a + x + y)%float (a + y + x)%float.
Proof. destruct a, x, y; simpl; auto. ring. Qed.

Lemma fadd_assoc (a b c : float) : feq (a + b + c)%float (a + (b + c))%float.
Proof. destruct a, b, c; simpl; auto. ring. Qed.

Lemma fadd_0_l (a : float) : feq (Fin 0 + a)%float a.
Proof. destruct a; simpl; auto. ring. Qed.

Lemma fold_fadd_feq (l : list float) (a a' : float) :
  feq a a' -> feq (fold_left fadd l a) (fold_left fadd l a').
Proof.
  revert a a'. induction l as [|x l IH]; intros a a' H; simpl; [exact H|].
  apply IH, fadd_feq; [exact H | apply feq_refl].
Qed.

(** A sum from the left does not depend on the order of its terms. *)
Lemma fold_fadd_permutation (l l' : list float) (a : float) :
  Permutation l l' -> feq (fold_left fadd l a) (fold_left fadd l' a).
Proof.
  intros H. revert a. induction H as [|x l l' _ IH|x y l|l l' l'' _ IH1 _ IH2];
    intros a; simpl.
  - apply feq_refl.
  - apply IH.
  - apply fold_fadd_feq, fadd_swap.
  - eapply feq_trans; [apply IH1 | apply IH2].
Qed.

(** Python's [sum] adds from the left; its value is the sum. *)
Lemma fold_left_total (xs : list float) (a : float) :
  feq (fold_left fadd xs a) (a + total xs)%float.
Proof.
  revert a. induction xs as [|x xs IH]; intros a; simpl.
  - destruct a; simpl; auto. ring.
  - eapply feq_trans; [apply IH | apply fadd_assoc].
Qed.

Lemma py_sum_total (xs : list float) : feq (py_sum xs) (total xs).
Proof.
  unfold py_sum. eapply feq_trans; [apply fold_left_total | apply fadd_0_l].
Qed.

Lemma total_feq (xs ys : list float) :
  Forall2 feq xs ys -> feq (total xs) (total ys).
Proof.
  induction 1; simpl; [reflexivity|]. now apply fadd_feq.
Qed.

(** A division by the length of a list that is not empty returns. *)
Lemma fdiv_py_len (x : float) (y : float) (ys : list float) :
  exists z, fdiv x (py_len (y :: ys)) = Some z.
Proof.
  unfold fdiv, py_len.
  assert (H : Qeq_bool (inject_Z (Z.of_nat (List.length (y :: ys)))) 0 = false).
  { q_goal. unfold Qeq. simpl. lia. }
  rewrite H. eexists; reflexivity.
Qed.

(** ** The score normaliser *)

(** Clamping with [max(lo, min(hi, x))] lands in [[lo, hi]] for every [x],
    NaN and the infinities included. *)
Lemma clamp_range (lo hi : Q) (x : float) :
  lo <= hi ->
  exists c : Q,
    py_max (Fin lo) (py_min (Fin hi) x) = Fin c /\ lo <= c <= hi.
Proof.
  intros Hlh. unfold py_max, py_min, fgtb.
  destruct x as [q| | |]; simpl.
  - destruct (Qltb q hi) eqn:E1; simpl.
    + destruct (Qltb lo q) eqn:E2; q_props; eexists; split; try reflexivity; lra.
    + destruct (Qltb lo hi) eqn:E2; q_props; eexists; split; try reflexivity; lra.
  - destruct (Qltb lo hi) eqn:E2; q_props; eexists; split; try reflexivity; lra.
  - exists lo. split; [reflexivity | lra].
  - destruct (Qltb lo hi) eqn:E2; q_props; eexists; split; try reflexivity; lra.
Qed.

(** A finite value strictly inside the interval is left as it is. *)
Lemma clamp_inside (lo hi q : Q) :
  lo < q -> q < hi -> py_max (Fin lo) (py_min (Fin hi) (Fin q)) = Fin q.
Proof.
  intros H1 H2. unfold py_max, py_min, fgtb. simpl.
  apply Qltb_true in H1, H2. now rewrite H2, H1.
Qed.

Lemma compute_score_eq (rootless rootful weight : float) (direction : string) :
  compute_score rootless rootful weight direction =
  rel <- clamped_rel rootless rootful ;;
  let rel := if String.eqb direction "lower" then (- rel)%float else rel in
  Some (rel, (score_of rel * weight)%float).
Proof. reflexivity. Qed.

(** The divisions by [denom / 2.0] never raise, and the clamped delta is a
    finite value of [[-1, 1]] whatever the two samples are. *)
Lemma clamped_rel_range (rootless rootful : float) :
  exists r : Q, clamped_rel rootless rootful = Some (Fin r) /\ -1 <= r <= 1.
Proof.
  unfold clamped_rel.
  destruct (fabs rootless + fabs rootful ==? Fin 0)%float eqn:Hd.
  - exists 0. split; [reflexivity | lra].
  - assert (Hhalf : exists h,
               fdiv (fabs rootless + fabs rootful)%float (Fin 2) = Some h
               /\ (h ==? Fin 0)%float = false).
    { destruct (fabs rootless + fabs rootful)%float as [d| | |]; simpl in *.
      - exists (Fin (d / 2)). split; [reflexivity|]. simpl.
        q_props. q_goal. intro H. apply Hd.
        assert (E : d == (d / 2) * 2) by field. lra.
      - eexists. split; reflexivity.
      - eexists. split; reflexivity.
      - eexists. split; reflexivity. }
    destruct Hhalf as (h & -> & Hh). cbn [bind].
    assert (Hrel : exists x, fdiv (rootless - rootful)%float h = Some x).
    { unfold fdiv. destruct h as [b| | |]; simpl in Hh.
      - rewrite Hh. eexists; reflexivity.
      - eexists; reflexivity.
      - eexists; reflexivity.
      - eexists; reflexivity. }
    destruct Hrel as (x & ->). cbn [bind].
    destruct (clamp_range (-1) 1 x) as (c & Hc & Hr); [lra|].
    exists c. split; [now rewrite Hc | exact Hr].
Qed.

Lemma score_of_range (r : Q) :
  -1 <= r <= 1 ->
  exists s : Q, score_of (Fin r) = Fin s /\ 0 <= s <= 100.
Proof.
  intros Hr. unfold score_of. simpl. apply clamp_range. lra.
Qed.

(** [compute_score] always returns: a finite delta of [[-1, 1]], the same
    for both directions up to its sign, and the contribution
    [score_of rel * weight]. *)
Lemma compute_score_returns (rootless rootful weight : float) (direction : string) :
  exists r : Q,
    clamped_rel rootless rootful = Some (Fin r) /\ -1 <= r <= 1 /\
    compute_score rootless rootful weight direction =
      if String.eqb direction "lower"
      then Some (Fin (- r), (score_of (Fin (- r)) * weight)%float)
      else Some (Fin r, (score_of (Fin r) * weight)%float).
Proof.
  destruct (clamped_rel_range rootless rootful) as (r & Hr & Hb).
  exists r. repeat split; try tauto.
  rewrite compute_score_eq, Hr. cbn [bind].
  destruct (String.eqb direction "lower"); reflexivity.
Qed.



(** At [rootless = 1], [rootful = 0] the relative delta before clamping is
    2; the result is the clamped delta 1 and the score 100. *)
Example compute_score_one_zero (w : Q) :
  (exists x,
     (half <- fdiv (fabs (Fin 1) + fabs (Fin 0))%float (Fin 2) ;;
      fdiv (Fin 1 - Fin 0)%float half) = Some x /\ feq x (Fin 2)) /\
  compute_score (Fin 1) (Fin 0) (Fin w) "higher" = Some (Fin 1, Fin (100 * w)).
Proof. split; [eexists; split; reflexivity | reflexivity]. Qed.

(** A NaN or infinite sample makes the quotient NaN, and the clamp turns NaN
    into the delta 1. *)
Example compute_score_special_values :
  compute_score NaN (Fin 3) (Fin 1) "higher" = Some (Fin 1, Fin (100 * 1)) /\
  compute_score (Fin 3) NaN (Fin 1) "higher" = Some (Fin 1, Fin (100 * 1)) /\
  compute_score NInf (Fin 5) (Fin 1) "higher" = Some (Fin 1, Fin (100 * 1)) /\
  compute_score PInf NInf (Fin 1) "higher" = Some (Fin 1, Fin (100 * 1)).
Proof. repeat split. Qed.


(** Equal finite samples give a delta that is zero. *)
Lemma clamped_rel_equal (q : Q) :
  exists r : Q, clamped_rel (Fin q) (Fin q) = Some (Fin r) /\ r == 0.
Proof.
  unfold clamped_rel. simpl.
  destruct (Qeq_bool (Qabs q + Qabs q) 0) eqn:Hd.
  - exists 0. split; reflexivity.
  - q_props.
    assert (Hh : Qeq_bool ((Qabs q + Qabs q) / 2) 0 = false).
    { q_goal. intro H. apply Hd.
      assert (E : Qabs q + Qabs q == ((Qabs q + Qabs q) / 2) * 2) by field. lra. }
    rewrite Hh. simpl.
    assert (Hx : (q + - q) / ((Qabs q + Qabs q) / 2) == 0).
    { field. intro H. apply Hd. lra. }
    exists ((q + - q) / ((Qabs q + Qabs q) / 2)).
    split; [| exact Hx].
    rewrite clamp_inside; [reflexivity | lra | lra].
Qed.

(** C5, amended. For every pair of equal finite samples, both zero
    included, every weight and every direction, [compute_score] returns
    without an error a delta equal to 0 and the contribution of a score
    equal to 50, that is [50 * weight]. *)
Theorem compute_score_equal_finite (q : Q) (weight : float) (direction : string) :
  exists rel score : float,
    compute_score (Fin q) (Fin q) weight direction
      = Some (rel, (score * weight)%float) /\
    (rel ==? Fin 0)%float = true /\
    (score ==? Fin 50)%float = true /\
    feq (score * weight)%float (Fin 50 * weight)%float.
Proof.
  destruct (clamped_rel_equal q) as (r & Hr & Hz).
  rewrite compute_score_eq, Hr. cbn [bind].
  set (rel := if String.eqb direction "lower" then - r else r).
  assert (Hrel : rel == 0).
  { unfold rel. destruct (String.eqb direction "lower"); lra. }
  assert (Hs : score_of (Fin rel) = Fin (50 + rel * 50)).
  { unfold score_of. simpl. apply clamp_inside; lra. }
  exists (Fin rel), (Fin (50 + rel * 50)).
  repeat split.
  - rewrite <- Hs. unfold rel.
    destruct (String.eqb direction "lower"); reflexivity.
  - simpl. q_goal. exact Hrel.
  - simpl. q_goal. lra.
  - apply fmul_feq; [simpl; lra | apply feq_refl].
Qed.

(** C5 as stated fails on equal infinite samples: their difference is NaN,
    which the clamp turns into the delta 1 and the score 100 (the delta -1
    and the score 0 when lower is better). *)
Lemma compute_score_equal_infinite :
  (PInf ==? PInf)%float = true /\
  compute_score PInf PInf (Fin 1) "higher" = Some (Fin 1, Fin (100 * 1)) /\
  compute_score PInf PInf (Fin 1) "lower" = Some (Fin (- (1)), Fin (0 * 1)) /\
  ~ (exists rel score : float,
        compute_score PInf PInf (Fin 1) "higher"
          = Some (rel, (score * Fin 1)%float) /\
        (rel ==? Fin 0)%float = true /\
        (score ==? Fin 50)%float = true).
Proof.
  repeat split.
  intros (rel & score & Hc & Hrel & _).
  change (compute_score PInf PInf (Fin 1) "higher")
    with (Some (Fin 1, Fin (100 * 1))) in Hc.
  inversion Hc; subst rel. discriminate Hrel.
Qed.

(** ** The verdict *)

(** C4. The verdict follows the chain of comparisons, the first that holds
    wins: [score >= strong_rootless], then [score >= mild_rootless], then
    [score <= strong_rootful], then [score <= mild_rootful], and
    "inconclusive" when none holds; the thresholds need not be ordered. *)
Theorem classify_first_match (t : ThresholdSet) (score : float) :
  ((score >=? strong_rootless t)%float = true ->
   verdict_str (classify t score) = "strong prefer rootless") /\
  ((score >=? strong_rootless t)%float = false ->
   (score >=? mild_rootless t)%float = true ->
   verdict_str (classify t score) = "mild prefer rootless") /\
  ((score >=? strong_rootless t)%float = false ->
   (score >=? mild_rootless t)%float = false ->
   (score <=? strong_rootful t)%float = true ->
   verdict_str (classify t score) = "strong prefer rootful") /\
  ((score >=? strong_rootless t)%float = false ->
   (score >=? mild_rootless t)%float = false ->
   (score <=? strong_rootful t)%float = false ->
   (score <=? mild_rootful t)%float = true ->
   verdict_str (classify t score) = "mild prefer rootful") /\
  ((score >=? strong_rootless t)%float = false ->
   (score >=? mild_rootless t)%float = false ->
   (score <=? strong_rootful t)%float = false ->
   (score <=? mild_rootful t)%float = false ->
   verdict_str (classify t score) = "inconclusive").
Proof.
  unfold classify.
  repeat split; intros; repeat match goal with H : _ = _ |- _ => rewrite H; clear H end;
    reflexivity.
Qed.

Lemma classify_first_match_example :
  verdict_str (classify thresholds_example (Fin 65)) = "mild prefer rootless".
Proof.
  apply (proj1 (proj2 (classify_first_match thresholds_example (Fin 65))));
    reflexivity.
Defined.

Lemma fltb_not_fleb (x y : float) :
  (x <? y)%float = true -> (y <=? x)%float = false.
Proof. float_order. Qed.

Lemma fleb_fltb_trans (x y z : float) :
  (x <=? y)%float = true -> (y <? z)%float = true -> (x <? z)%float = true.
Proof. float_order. Qed.

Lemma fltb_fleb_trans (x y z : float) :
  (x <? y)%float = true -> (y <=? z)%float = true -> (x <? z)%float = true.
Proof. float_order. Qed.

(** The verdict never moves towards rootful when the score grows. *)
Lemma classify_rank_monotone (t : ThresholdSet) (s1 s2 : float) :
  (s1 <=? s2)%float = true ->
  (rootless_rank (classify t s1) <= rootless_rank (classify t s2))%nat.
Proof.
  intros H12. unfold classify, fgeb.
  destruct (strong_rootless t <=? s1)%float eqn:A1.
  - rewrite (fleb_trans _ _ _ A1 H12). simpl. lia.
  - destruct (strong_rootless t <=? s2)%float eqn:A2;
      [destruct (mild_rootless t <=? s1)%float, (s1 <=? strong_rootful t)%float,
         (s1 <=? mild_rootful t)%float; simpl; lia|].
    destruct (mild_rootless t <=? s1)%float eqn:B1.
    + rewrite (fleb_trans _ _ _ B1 H12). simpl. lia.
    + destruct (mild_rootless t <=? s2)%float eqn:B2;
        [destruct (s1 <=? strong_rootful t)%float, (s1 <=? mild_rootful t)%float;
         simpl; lia|].
      destruct (s2 <=? strong_rootful t)%float eqn:C2.
      * rewrite (fleb_trans _ _ _ H12 C2). simpl. lia.
      * destruct (s1 <=? strong_rootful t)%float eqn:C1;
          [destruct (s2 <=? mild_rootful t)%float; simpl; lia|].
        destruct (s2 <=? mild_rootful t)%float eqn:D2.
        -- rewrite (fleb_trans _ _ _ H12 D2). simpl. lia.
        -- destruct (s1 <=? mild_rootful t)%float; simpl; lia.
Qed.

(** C8, amended. For every threshold set, ordered or not, and all scores
    [s1 <= s2], the verdict of [s2] leans at least as much towards rootless
    as the verdict of [s1].  The way from a rootful-leaning verdict at [s1]
    to a rootless-leaning verdict at [s2] passes through "inconclusive" at
    every score that lies above both rootful thresholds and below both
    rootless thresholds; the thresholds need not leave room for such a
    score. *)
Theorem classify_monotone (t : ThresholdSet) (s1 s2 : float) :
  (s1 <=? s2)%float = true ->
  (rootless_rank (classify t s1) <= rootless_rank (classify t s2))%nat /\
  (forall s : float,
      (strong_rootful t <? s)%float = true ->
      (mild_rootful t <? s)%float = true ->
      (s <? mild_rootless t)%float = true ->
      (s <? strong_rootless t)%float = true ->
      classify t s = Inconclusive /\
      ((rootless_rank (classify t s1) <= 1)%nat -> (s1 <? s)%float = true) /\
      ((3 <= rootless_rank (classify t s2))%nat -> (s <? s2)%float = true)).
Proof.
  intros H12. split; [now apply classify_rank_monotone|].
  intros s Hsf Hmf Hml Hsl. repeat split.
  - unfold classify, fgeb.
    now rewrite (fltb_not_fleb _ _ Hsl), (fltb_not_fleb _ _ Hml),
      (fltb_not_fleb _ _ Hsf), (fltb_not_fleb _ _ Hmf).
  - unfold classify, fgeb.
    destruct (strong_rootless t <=? s1)%float; [simpl; lia|].
    destruct (mild_rootless t <=? s1)%float; [simpl; lia|].
    destruct (s1 <=? strong_rootful t)%float eqn:C;
      [intros _; exact (fleb_fltb_trans _ _ _ C Hsf)|].
    destruct (s1 <=? mild_rootful t)%float eqn:D;
      [intros _; exact (fleb_fltb_trans _ _ _ D Hmf)|].
    simpl; lia.
  - unfold classify, fgeb.
    destruct (strong_rootless t <=? s2)%float eqn:A;
      [intros _; exact (fltb_fleb_trans _ _ _ Hsl A)|].
    destruct (mild_rootless t <=? s2)%float eqn:B;
      [intros _; exact (fltb_fleb_trans _ _ _ Hml B)|].
    destruct (s2 <=? strong_rootful t)%float; [simpl; lia|].
    destruct (s2 <=? mild_rootful t)%float; simpl; lia.
Qed.

(** From "mild prefer rootful" at 30 to "mild prefer rootless" at 65, through
    "inconclusive" at 50. *)
Lemma classify_monotone_example :
  (rootless_rank (classify thresholds_example (Fin 30))
   <= rootless_rank (classify thresholds_example (Fin 65)))%nat /\
  classify thresholds_example (Fin 50) = Inconclusive /\
  (Fin 30 <? Fin 50)%float = true /\
  (Fin 50 <? Fin 65)%float = true.
Proof.
  destruct (classify_monotone thresholds_example (Fin 30) (Fin 65) eq_refl)
    as (Hrank & Hgap).
  destruct (Hgap (Fin 50) eq_refl eq_refl eq_refl eq_refl) as (Hi & H1 & H2).
  split; [exact Hrank|]. split; [exact Hi|].
  split; [apply H1 | apply H2]; simpl; lia.
Defined.

(** C8 as stated fails: with [mild_rootless = mild_rootful = 50] the verdict
    goes from "mild prefer rootful" at 49 to "mild prefer rootless" at 50,
    and no score in between is "inconclusive". *)
Lemma classify_skips_inconclusive :
  (Fin 49 <=? Fin 50)%float = true /\
  classify thresholds_touching (Fin 49) = MildRootful /\
  classify thresholds_touching (Fin 50) = MildRootless /\
  (forall s : float,
      (Fin 49 <=? s)%float = true -> (s <=? Fin 50)%float = true ->
      classify thresholds_touching s <> Inconclusive).
Proof.
  repeat split.
  intros s H1 H2. unfold classify, thresholds_touching, fgeb. simpl.
  destruct s as [q| | |]; simpl in *; try discriminate.
  destruct (Qle_bool 75 q) eqn:E1; [discriminate|].
  destruct (Qle_bool 50 q) eqn:E2; [discriminate|].
  destruct (Qle_bool q 25) eqn:E3; [discriminate|].
  destruct (Qle_bool q 50) eqn:E4; [discriminate|].
  q_props. lra.
Qed.



(** ** Dictionaries *)

Lemma dict_get_set_same {V : Type} (d : list (string * V)) (k : string) (v : V) :
  dict_get (dict_set d k v) k = Some v.
Proof.
  induction d as [|[k' v'] d IH]; simpl.
  - now rewrite String.eqb_refl.
  - destruct (String.eqb k' k) eqn:E; simpl; rewrite E; auto.
Qed.

Lemma dict_get_set_other {V : Type} (d : list (string * V)) (k k0 : string) (v : V) :
  k <> k0 -> dict_get (dict_set d k v) k0 = dict_get d k0.
Proof.
  intros Hk. induction d as [|[k' v'] d IH]; simpl.
  - destruct (String.eqb k k0) eqn:E;
      [apply String.eqb_eq in E; contradiction | reflexivity].
  - destruct (String.eqb k' k) eqn:E; simpl.
    + apply String.eqb_eq in E. subst k'.
      destruct (String.eqb k k0) eqn:E0;
        [apply String.eqb_eq in E0; contradiction | reflexivity].
    + destruct (String.eqb k' k0); auto.
Qed.

(** A key that is not in the dict yet goes to the end. *)
Lemma dict_set_fresh {V : Type} (d : list (string * V)) (k : string) (v : V) :
  ~ In k (map fst d) -> dict_set d k v = (d ++ [(k, v)])%list.
Proof.
  induction d as [|[k' v'] d IH]; simpl; intros Hk; [reflexivity|].
  destruct (String.eqb k' k) eqn:E.
  - apply String.eqb_eq in E. tauto.
  - rewrite IH; tauto.
Qed.

(** ** The loop over the metrics *)

Section Loop.

Variable fetch : fetcher.
Variables rootless_name rootful_name : string.

Lemma loop_body_eq (st : LoopState) (name : string) (spec : Config.metric) :
  loop_body fetch rootless_name rootful_name st (name, spec) =
  e <- entry_of fetch rootless_name rootful_name spec ;;
  Some (record_entry st name e).
Proof.
  unfold loop_body, entry_of.
  destruct (fetch (Config.query spec) rootless_name) as [[rl_val rl_ok]|];
    [|reflexivity]; cbn [bind].
  destruct (fetch (Config.query spec) rootful_name) as [[rf_val rf_ok]|];
    [|reflexivity]; cbn [bind].
  destruct (negb (rl_ok && rf_ok)); [reflexivity|].
  destruct (compute_score _ _ _ _) as [[rel weighted]|]; reflexivity.
Qed.

(** The loop body raises only when a fetch does. *)
Lemma entry_of_fetched (spec : Config.metric) :
  fetched fetch rootless_name rootful_name spec ->
  exists e, entry_of fetch rootless_name rootful_name spec = Some e.
Proof.
  intros [H1 H2]. unfold entry_of.
  destruct (fetch (Config.query spec) rootless_name) as [[rl_val rl_ok]|];
    [|contradiction]; cbn [bind].
  destruct (fetch (Config.query spec) rootful_name) as [[rf_val rf_ok]|];
    [|contradiction]; cbn [bind].
  destruct (negb (rl_ok && rf_ok)); [eexists; reflexivity|].
  destruct (compute_score_returns (or_zero rl_val) (or_zero rf_val)
              (weight_of spec) (direction_of spec)) as (r & _ & _ & Hc).
  rewrite Hc. destruct (String.eqb _ _); eexists; reflexivity.
Qed.

(** The entry of a metric with a fetch that reports [ok = False]. *)
Lemma entry_of_missing (spec : Config.metric)
    (rl_val rf_val : option float) (rl_ok rf_ok : bool) :
  fetch (Config.query spec) rootless_name = Some (rl_val, rl_ok) ->
  fetch (Config.query spec) rootful_name = Some (rf_val, rf_ok) ->
  rl_ok && rf_ok = false ->
  entry_of fetch rootless_name rootful_name spec =
    Some {| rootless_value := rl_val;
            rootful_value := rf_val;
            direction := direction_of spec;
            weight := weight_of spec;
            included := false;
            reason := Some "missing series";
            normalized_delta := None;
            weighted_score_contrib := None |}.
Proof.
  intros H1 H2 Hok. unfold entry_of. rewrite H1, H2. cbn [bind].
  now rewrite Hok.
Qed.

(** One step of the loop on a metric with a missing series: the entry is
    written, the two sums are left as they are. *)
Lemma loop_body_missing (st : LoopState) (name : string) (spec : Config.metric)
    (rl_val rf_val : option float) (rl_ok rf_ok : bool) :
  fetch (Config.query spec) rootless_name = Some (rl_val, rl_ok) ->
  fetch (Config.query spec) rootful_name = Some (rf_val, rf_ok) ->
  rl_ok && rf_ok = false ->
  exists st',
    loop_body fetch rootless_name rootful_name st (name, spec) = Some st' /\
    total_weight st' = total_weight st /\
    weighted_sum st' = weighted_sum st.
Proof.
  intros H1 H2 Hok.
  rewrite loop_body_eq, (entry_of_missing _ _ _ _ _ H1 H2 Hok). cbn [bind].
  eexists. repeat split.
Qed.

(** A metric without both samples is written as excluded. *)
Lemma entry_of_not_both_ok (name : string) (spec : Config.metric)
    (e : MetricResult) :
  entry_of fetch rootless_name rootful_name spec = Some e ->
  both_ok fetch rootless_name rootful_name (name, spec) = false ->
  included e = false /\ weighted_score_contrib e = None.
Proof.
  unfold entry_of, both_ok. simpl.
  destruct (fetch (Config.query spec) rootless_name) as [[rl_val rl_ok]|];
    [|discriminate]; cbn [bind].
  destruct (fetch (Config.query spec) rootful_name) as [[rf_val rf_ok]|];
    [|discriminate]; cbn [bind].
  intros He Hok. rewrite Hok in He. cbn [negb] in He.
  inversion He; subst e. split; reflexivity.
Qed.

Lemma loop_returns (items : list (string * Config.metric)) (st : LoopState) :
  Forall (fun item => fetched fetch rootless_name rootful_name (snd item)) items ->
  exists st', loop fetch rootless_name rootful_name st items = Some st'.
Proof.
  revert st. induction items as [|[name spec] items IH]; intros st Hf; cbn [loop].
  - eexists; reflexivity.
  - inversion Hf as [|? ? Hspec Hrest]; subst.
    rewrite loop_body_eq.
    destruct (entry_of_fetched spec Hspec) as (e & ->). cbn [bind].
    apply IH, Hrest.
Qed.

(** Entries written for other names leave the entry of [name] alone. *)
Lemma loop_keeps_entry (items : list (string * Config.metric))
    (st st' : LoopState) (name : string) :
  ~ In name (map fst items) ->
  loop fetch rootless_name rootful_name st items = Some st' ->
  dict_get (rep_metrics st') name = dict_get (rep_metrics st) name.
Proof.
  revert st. induction items as [|[n spec] items IH]; intros st Hn Hl;
    cbn [loop map fst In] in *.
  - now inversion Hl.
  - rewrite loop_body_eq in Hl.
    destruct (entry_of fetch rootless_name rootful_name spec) as [e|];
      [|discriminate]. cbn [bind] in Hl.
    rewrite (IH _ (fun H => Hn (or_intror H)) Hl). cbn [record_entry rep_metrics].
    apply dict_get_set_other. intro; subst. apply Hn. now left.
Qed.

(** With distinct names, the entry of a metric is still there after the
    loop. *)
Lemma loop_entry (items : list (string * Config.metric))
    (st st' : LoopState) (name : string) (spec : Config.metric) (e : MetricResult) :
  NoDup (map fst items) ->
  loop fetch rootless_name rootful_name st items = Some st' ->
  In (name, spec) items ->
  entry_of fetch rootless_name rootful_name spec = Some e ->
  dict_get (rep_metrics st') name = Some e.
Proof.
  revert st. induction items as [|[n s] items IH]; intros st Hnd Hl Hin He;
    cbn [loop map fst In] in *; [contradiction|].
  inversion Hnd as [|? ? Hfresh Hnd']; subst.
  rewrite loop_body_eq in Hl.
  destruct Hin as [Heq | Hin].
  - inversion Heq; subst. rewrite He in Hl. cbn [bind] in Hl.
    rewrite (loop_keeps_entry _ _ _ _ Hfresh Hl). cbn [record_entry rep_metrics].
    apply dict_get_set_same.
  - destruct (entry_of fetch rootless_name rootful_name s) as [e0|];
      [|discriminate]. cbn [bind] in Hl.
    eapply IH; eauto.
Qed.

(** Dropping the metrics with a missing series changes neither sum. *)
Lemma loop_filter_both_ok (items : list (string * Config.metric))
    (st1 st2 st1' : LoopState) :
  total_weight st1 = total_weight st2 ->
  weighted_sum st1 = weighted_sum st2 ->
  loop fetch rootless_name rootful_name st1 items = Some st1' ->
  exists st2',
    loop fetch rootless_name rootful_name st2
      (filter (both_ok fetch rootless_name rootful_name) items) = Some st2' /\
    total_weight st2' = total_weight st1' /\
    weighted_sum st2' = weighted_sum st1'.
Proof.
  revert st1 st2. induction items as [|[n s] items IH]; intros st1 st2 Hw Hs Hl;
    cbn [loop filter] in *.
  - inversion Hl; subst. eexists; split; [reflexivity|]. split; congruence.
  - rewrite loop_body_eq in Hl.
    destruct (entry_of fetch rootless_name rootful_name s) as [e|] eqn:He;
      [|discriminate]. cbn [bind] in Hl.
    destruct (both_ok fetch rootless_name rootful_name (n, s)) eqn:Hok.
    + cbn [loop]. rewrite loop_body_eq, He. cbn [bind].
      eapply IH; [| |exact Hl]; unfold record_entry; simpl;
        rewrite ?Hw, ?Hs; reflexivity.
    + destruct (entry_of_not_both_ok n s e He Hok) as [Hi Hc].
      eapply IH; [| |exact Hl]; unfold record_entry; simpl;
        rewrite ?Hi, ?Hc; assumption.
Qed.

(** The loop writes the entries of the metrics one after the other. *)
Lemma loop_entries (items : list (string * Config.metric)) (st : LoopState) :
  loop fetch rootless_name rootful_name st items =
  es <- entries fetch rootless_name rootful_name items ;;
  Some (record_all es st).
Proof.
  revert st. induction items as [|[name spec] items IH]; intros st;
    cbn [loop entries]; [reflexivity|].
  rewrite loop_body_eq.
  destruct (entry_of fetch rootless_name rootful_name spec) as [e|];
    [|reflexivity]; cbn [bind].
  rewrite IH. destruct (entries fetch rootless_name rootful_name items); reflexivity.
Qed.

Lemma entries_names (items : list (string * Config.metric))
    (es : list (string * MetricResult)) :
  entries fetch rootless_name rootful_name items = Some es ->
  map fst es = map fst items.
Proof.
  revert es. induction items as [|[name spec] items IH]; intros es H;
    cbn [entries] in H.
  - now inversion H.
  - destruct (entry_of fetch rootless_name rootful_name spec) as [e|];
      [|discriminate]; cbn [bind] in H.
    destruct (entries fetch rootless_name rootful_name items) as [es0|];
      [|discriminate]; cbn [bind] in H.
    inversion H; subst. simpl. now rewrite (IH es0).
Qed.

(** Reordering the metrics reorders the entries, and a fetch that raises
    does so in every order. *)
Lemma entries_permutation (items items' : list (string * Config.metric)) :
  Permutation items items' ->
  match entries fetch rootless_name rootful_name items,
        entries fetch rootless_name rootful_name items' with
  | Some es, Some es' => Permutation es es'
  | None, None => True
  | _, _ => False
  end.
Proof.
  induction 1 as [|[n s] l l' _ IH|[n1 s1] [n2 s2] l|l l' l'' _ IH1 _ IH2];
    cbn [entries].
  - constructor.
  - destruct (entry_of fetch rootless_name rootful_name s); cbn [bind]; [|exact I].
    destruct (entries fetch rootless_name rootful_name l),
      (entries fetch rootless_name rootful_name l'); cbn [bind]; try tauto.
    now constructor.
  - destruct (entry_of fetch rootless_name rootful_name s1),
      (entry_of fetch rootless_name rootful_name s2); cbn [bind]; try exact I;
      destruct (entries fetch rootless_name rootful_name l); cbn [bind];
      try exact I.
    apply perm_swap.
  - destruct (entries fetch rootless_name rootful_name l),
      (entries fetch rootless_name rootful_name l'),
      (entries fetch rootless_name rootful_name l''); try tauto.
    eapply Permutation_trans; eauto.
Qed.

(** With nonnegative weights the sums stay in range. *)
Lemma record_entry_in_range (st : LoopState) (name : string)
    (spec : Config.metric) (e : MetricResult) :
  nonneg (weight_of spec) ->
  entry_of fetch rootless_name rootful_name spec = Some e ->
  sums_in_range st ->
  sums_in_range (record_entry st name e).
Proof.
  intros Hw He (a & b & Ha & Hb & Ha0 & Hb0).
  unfold entry_of in He.
  destruct (fetch (Config.query spec) rootless_name) as [[rl_val rl_ok]|];
    [|discriminate]; cbn [bind] in He.
  destruct (fetch (Config.query spec) rootful_name) as [[rf_val rf_ok]|];
    [|discriminate]; cbn [bind] in He.
  destruct (negb (rl_ok && rf_ok)).
  - inversion He; subst e. exists a, b. unfold record_entry; simpl. auto.
  - destruct (weight_of spec) as [w| | |] eqn:Ew; simpl in Hw; try contradiction.
    destruct (compute_score_returns (or_zero rl_val) (or_zero rf_val) (Fin w)
                (direction_of spec)) as (r & _ & Hr & Hc).
    assert (Hs : exists rel s : Q,
               compute_score (or_zero rl_val) (or_zero rf_val) (Fin w)
                 (direction_of spec) = Some (Fin rel, Fin (s * w))
               /\ 0 <= s <= 100).
    { rewrite Hc. destruct (String.eqb _ _).
      - destruct (score_of_range (- r)) as (s & Hs & Hsb); [lra|].
        exists (- r), s. rewrite Hs. split; [reflexivity | exact Hsb].
      - destruct (score_of_range r) as (s & Hs & Hsb); [lra|].
        exists r, s. rewrite Hs. split; [reflexivity | exact Hsb]. }
    destruct Hs as (rel & s & Hcs & Hsb).
    rewrite Hcs in He. cbn [bind] in He. inversion He; subst e.
    exists (a + w), (b + s * w). unfold record_entry; simpl.
    rewrite Ha, Hb. simpl. repeat split; try lra; nra.
Qed.

Lemma loop_in_range (items : list (string * Config.metric)) (st st' : LoopState) :
  Forall (fun item => nonneg (weight_of (snd item))) items ->
  sums_in_range st ->
  loop fetch rootless_name rootful_name st items = Some st' ->
  sums_in_range st'.
Proof.
  revert st. induction items as [|[name spec] items IH]; intros st Hw Hst Hl;
    cbn [loop] in Hl.
  - now inversion Hl; subst.
  - inversion Hw as [|? ? Hspec Hrest]; subst.
    rewrite loop_body_eq in Hl.
    destruct (entry_of fetch rootless_name rootful_name spec) as [e|] eqn:He;
      [|discriminate]. cbn [bind] in Hl.
    apply (IH _ Hrest (record_entry_in_range _ name _ _ Hspec He Hst) Hl).
Qed.

End Loop.

(** ** The two sums *)

Lemma added_weights_permutation (es es' : list (string * MetricResult)) :
  Permutation es es' -> Permutation (added_weights es) (added_weights es').
Proof.
  induction 1 as [|[n e] l l' _ IH|[n1 e1] [n2 e2] l|l l' l'' _ IH1 _ IH2]; simpl.
  - constructor.
  - destruct (included e); [now constructor | exact IH].
  - destruct (included e1), (included e2);
      try apply Permutation_refl. apply perm_swap.
  - eapply Permutation_trans; eauto.
Qed.

Lemma added_contribs_permutation (es es' : list (string * MetricResult)) :
  Permutation es es' -> Permutation (added_contribs es) (added_contribs es').
Proof.
  induction 1 as [|[n e] l l' _ IH|[n1 e1] [n2 e2] l|l l' l'' _ IH1 _ IH2]; simpl.
  - constructor.
  - destruct (weighted_score_contrib e); [now constructor | exact IH].
  - destruct (weighted_score_contrib e1), (weighted_score_contrib e2);
      try apply Permutation_refl. apply perm_swap.
  - eapply Permutation_trans; eauto.
Qed.

Lemma record_all_total_weight (es : list (string * MetricResult)) (st : LoopState) :
  total_weight (record_all es st) =
  fold_left fadd (added_weights es) (total_weight st).
Proof.
  revert st. induction es as [|[n e] es IH]; intros st; [reflexivity|].
  unfold record_all in *. cbn [fold_left added_weights]. rewrite IH.
  unfold record_entry; simpl. destruct (included e); reflexivity.
Qed.

Lemma record_all_weighted_sum (es : list (string * MetricResult)) (st : LoopState) :
  weighted_sum (record_all es st) =
  fold_left fadd (added_contribs es) (weighted_sum st).
Proof.
  revert st. induction es as [|[n e] es IH]; intros st; [reflexivity|].
  unfold record_all in *. cbn [fold_left added_contribs]. rewrite IH.
  unfold record_entry; simpl. destruct (weighted_score_contrib e); reflexivity.
Qed.

(** With distinct names every entry is appended to [rep_metrics]. *)
Lemma record_all_rep_metrics (es : list (string * MetricResult)) (st : LoopState) :
  NoDup (map fst (rep_metrics st ++ es)%list) ->
  rep_metrics (record_all es st) = (rep_metrics st ++ es)%list.
Proof.
  revert st. induction es as [|[n e] es IH]; intros st Hnd.
  - simpl. now rewrite app_nil_r.
  - assert (Hfresh : dict_set (rep_metrics st) n e
                     = (rep_metrics st ++ [(n, e)])%list).
    { apply dict_set_fresh. rewrite map_app in Hnd. simpl in Hnd.
      apply NoDup_remove_2 in Hnd. intro Hin. apply Hnd.
      apply in_or_app. now left. }
    unfold record_all in *. cbn [fold_left]. rewrite IH;
      cbn [record_entry rep_metrics fst snd]; rewrite Hfresh, <- app_assoc;
      [reflexivity | exact Hnd].
Qed.

(** The division of the aggregate is guarded by [total_weight > 0]: it
    never raises. *)
Lemma aggregate_returns (st : LoopState) : exists s, aggregate st = Some s.
Proof.
  unfold aggregate, fgtb.
  destruct (Fin 0 <? total_weight st)%float eqn:Hpos; [|eexists; reflexivity].
  unfold fdiv. destruct (total_weight st) as [q| | |]; simpl in Hpos;
    try (eexists; reflexivity).
  q_props. assert (Hq : Qeq_bool q 0 = false) by (q_goal; lra).
  rewrite Hq. eexists; reflexivity.
Qed.

Lemma aggregate_in_range (st : LoopState) :
  sums_in_range st ->
  exists q : Q, aggregate st = Some (Fin q) /\ 0 <= q <= 100.
Proof.
  intros (a & b & Ha & Hb & Ha0 & Hb0).
  unfold aggregate, fgtb. rewrite Ha, Hb. simpl.
  destruct (Qltb 0 a) eqn:Hpos.
  - q_props. assert (Hz : Qeq_bool a 0 = false) by (q_goal; lra).
    rewrite Hz. exists (b / a). split; [reflexivity|].
    assert (E : b == (b / a) * a) by (field; lra).
    split; nra.
  - exists 50. split; [reflexivity | lra].
Qed.

Lemma aggregate_feq (st st' : LoopState) :
  feq (total_weight st) (total_weight st') ->
  feq (weighted_sum st) (weighted_sum st') ->
  opt_feq (aggregate st) (aggregate st').
Proof.
  intros Hw Hs. unfold aggregate, fgtb.
  rewrite (fltb_feq (Fin 0) (Fin 0) _ _ (feq_refl _) Hw).
  destruct (Fin 0 <? total_weight st')%float.
  - apply fdiv_feq; assumption.
  - simpl. reflexivity.
Qed.

Lemma classify_feq (t : ThresholdSet) (s s' : float) :
  feq s s' -> classify t s = classify t s'.
Proof.
  intros H. unfold classify, fgeb.
  rewrite (fleb_feq (strong_rootless t) (strong_rootless t) s s' (feq_refl _) H).
  rewrite (fleb_feq (mild_rootless t) (mild_rootless t) s s' (feq_refl _) H).
  rewrite (fleb_feq s s' (strong_rootful t) (strong_rootful t) H (feq_refl _)).
  rewrite (fleb_feq s s' (mild_rootful t) (mild_rootful t) H (feq_refl _)).
  reflexivity.
Qed.

Lemma run_repetition_eq (fetch : fetcher) (rootless_name rootful_name : string)
    (items : list (string * Config.metric)) (t : ThresholdSet) (i now : Z)
    (st : LoopState) (s : float) :
  loop fetch rootless_name rootful_name loop_init items = Some st ->
  aggregate st = Some s ->
  run_repetition fetch rootless_name rootful_name items t i now =
    Some {| rep := (i + 1)%Z;
            timestamp := now;
            metrics := rep_metrics st;
            weighted_score := s;
            verdict := classify t s;
            effective_weight := total_weight st |}.
Proof.
  intros Hl Ha. unfold run_repetition. rewrite Hl. cbn [bind]. now rewrite Ha.
Qed.

Lemma metrics_example_nodup : NoDup (map fst metrics_example).
Proof.
  repeat constructor; simpl; intuition discriminate.
Qed.

Lemma metrics_example_fetched :
  Forall (fun item => fetched fetch_example "rootless" "rootful" (snd item))
    metrics_example.
Proof.
  repeat constructor; simpl; discriminate.
Qed.

(** ** One repetition *)



(** With [mem] missing, the score of the repetition is the score of [cpu]
    alone, 250/3 on the weight 2.  With [mem] present at the neutral score
    50, it is 650/9 on the weight 3. *)
Example missing_series_not_neutral :
  exists r r' : RepetitionResult,
    run_repetition fetch_example "rootless" "rootful" metrics_example
      thresholds_example 0 0 = Some r /\
    feq (weighted_score r) (Fin (250 # 3)) /\
    feq (effective_weight r) (Fin 2) /\
    verdict r = StrongRootless /\
    run_repetition fetch_complete "rootless" "rootful" metrics_example
      thresholds_example 0 0 = Some r' /\
    feq (weighted_score r') (Fin (650 # 9)) /\
    feq (effective_weight r') (Fin 3) /\
    verdict r' = MildRootless.
Proof. do 2 eexists. split; [reflexivity|]. repeat split. Qed.



(** When every series is missing, nothing is scored: the effective weight
    is 0 and the score is the neutral 50. *)
Example all_missing_is_neutral :
  exists r : RepetitionResult,
    run_repetition (fun _ _ => Some (None, false)) "rootless" "rootful"
      metrics_example thresholds_example 0 0 = Some r /\
    map (fun ne => included (snd ne)) (metrics r) = [false; false] /\
    weighted_score r = Fin 50 /\
    effective_weight r = Fin 0 /\
    verdict_str (verdict r) = "inconclusive".
Proof. eexists. split; [reflexivity|]. repeat split. Qed.

(** A fetch that raises aborts the repetition. *)
Example raising_fetch_aborts :
  run_repetition (fun _ _ => None) "rootless" "rootful"
    metrics_example thresholds_example 0 0 = None.
Proof. reflexivity. Qed.



(** ** The summary *)

(** [min(xs)] scans from the left and keeps the first smallest element. *)
Lemma py_min_list_spec (xs : list float) (cur : float) :
  let m := py_min_list cur xs in
  (m = cur \/ In m xs) /\
  (forall seen, (seen <? cur)%float = false -> (seen <? m)%float = false) /\
  (forall x, In x xs -> (x <? m)%float = false).
Proof.
  revert cur. induction xs as [|y ys IH]; intros cur; simpl.
  - repeat split; auto. contradiction.
  - destruct (IH (py_min cur y)) as (Hin & Hseen & Hall).
    unfold py_min_list in *. simpl.
    assert (Hstep : forall seen, (seen <? cur)%float = false ->
                                 (seen <? py_min cur y)%float = false).
    { intros seen Hs. unfold py_min. destruct (y <? cur)%float eqn:E; [|exact Hs].
      exact (not_below_step _ _ _ Hs E). }
    repeat split.
    + destruct Hin as [Hin | Hin]; [|now right; right].
      rewrite Hin. unfold py_min. destruct (y <? cur)%float; auto.
    + intros seen Hs. apply Hseen, Hstep, Hs.
    + intros x [Hx | Hx]; [|now apply Hall]. subst x.
      apply Hseen. unfold py_min. destruct (y <? cur)%float eqn:E; [|exact E].
      apply fltb_irrefl.
Qed.

(** [max(xs)] scans from the left and keeps the first largest element. *)
Lemma py_max_list_spec (xs : list float) (cur : float) :
  let m := py_max_list cur xs in
  (m = cur \/ In m xs) /\
  (forall seen, (seen >? cur)%float = false -> (seen >? m)%float = false) /\
  (forall x, In x xs -> (x >? m)%float = false).
Proof.
  revert cur. induction xs as [|y ys IH]; intros cur; simpl.
  - repeat split; auto. contradiction.
  - destruct (IH (py_max cur y)) as (Hin & Hseen & Hall).
    unfold py_max_list in *. simpl.
    assert (Hstep : forall seen, (seen >? cur)%float = false ->
                                 (seen >? py_max cur y)%float = false).
    { intros seen Hs. unfold py_max. destruct (y >? cur)%float eqn:E; [|exact Hs].
      unfold fgtb in *. exact (not_above_step _ _ _ Hs E). }
    repeat split.
    + destruct Hin as [Hin | Hin]; [|now right; right].
      rewrite Hin. unfold py_max. destruct (y >? cur)%float; auto.
    + intros seen Hs. apply Hseen, Hstep, Hs.
    + intros x [Hx | Hx]; [|now apply Hall]. subst x.
      apply Hseen. unfold py_max. destruct (y >? cur)%float eqn:E; [|exact E].
      unfold fgtb. apply fltb_irrefl.
Qed.

Lemma py_min_list_minimum (x : float) (xs : list float) :
  is_minimum (py_min_list x xs) (x :: xs).
Proof.
  destruct (py_min_list_spec xs x) as (Hin & Hseen & Hall).
  assert (Hlow : forall y, In y (x :: xs) -> (y <? py_min_list x xs)%float = false).
  { intros y [Hy | Hy]; [|now apply Hall]. subst y. apply Hseen, fltb_irrefl. }
  assert (Hmem : In (py_min_list x xs) (x :: xs)).
  { simpl. destruct Hin as [-> | Hin]; auto. }
  repeat split.
  - exact Hmem.
  - exact Hlow.
  - intros Hnan y Hy. rewrite Forall_forall in Hnan.
    apply not_below_fleb; [now apply Hnan | now apply Hnan | now apply Hlow].
Qed.

Lemma py_max_list_maximum (x : float) (xs : list float) :
  is_maximum (py_max_list x xs) (x :: xs).
Proof.
  destruct (py_max_list_spec xs x) as (Hin & Hseen & Hall).
  assert (Hup : forall y, In y (x :: xs) -> (y >? py_max_list x xs)%float = false).
  { intros y [Hy | Hy]; [|now apply Hall]. subst y. apply Hseen.
    unfold fgtb. apply fltb_irrefl. }
  assert (Hmem : In (py_max_list x xs) (x :: xs)).
  { simpl. destruct Hin as [-> | Hin]; auto. }
  repeat split.
  - exact Hmem.
  - exact Hup.
  - intros Hnan y Hy. rewrite Forall_forall in Hnan. unfold fgeb.
    apply not_below_fleb; [now apply Hnan | now apply Hnan |].
    exact (Hup y Hy).
Qed.

Lemma deviations_feq (m m' : float) (xs : list float) :
  feq m m' ->
  Forall2 feq (map (fun s => square (s - m)%float) xs)
              (map (fun x => square (x - m')%float) xs).
Proof.
  intros H. induction xs as [|x xs IH]; simpl; constructor; [|exact IH].
  unfold square.
  apply fmul_feq; apply fsub_feq; try apply feq_refl; exact H.
Qed.

(** The mean of the code is the average. *)
Lemma mean_of_average (x : float) (xs : list float) :
  exists m, mean_of (x :: xs) = Some m /\ opt_feq (Some m) (average (x :: xs)).
Proof.
  unfold mean_of, average.
  destruct (fdiv_py_len (py_sum (x :: xs)) x xs) as (m & Hm).
  exists m. split; [exact Hm|]. rewrite <- Hm.
  apply fdiv_feq; [apply py_sum_total | apply feq_refl].
Qed.

(** The variance of the code is the population variance. *)
Lemma variance_of_population (m : float) (x : float) (xs : list float) :
  opt_feq (Some m) (average (x :: xs)) ->
  exists v, variance_of m (x :: xs) = Some v /\
            opt_feq (Some v) (population_variance (x :: xs)).
Proof.
  intros Hm. unfold variance_of, population_variance.
  destruct (average (x :: xs)) as [m'|]; [|contradiction].
  cbn [bind]. cbn [opt_feq] in Hm.
  destruct (fdiv_py_len
              (py_sum (map (fun s => square (s - m)%float) (x :: xs))) x xs)
    as (v & Hv).
  exists v. split; [exact Hv|]. rewrite <- Hv.
  apply fdiv_feq; [|apply feq_refl].
  eapply feq_trans; [apply py_sum_total|].
  apply total_feq, deviations_feq, Hm.
Qed.



(** The scores 60, 70, 80: the mean is 70, the variance is 200/3 (the
    squared deviations 100, 0, 100 divided by 3, not by 2), the extremes are
    60 and 80, and the final verdict is that of the third repetition, which
    is not the verdict of the mean. *)
Example summarize_three (pow_half : float -> float) :
  exists (s : Summary) (variance : float),
    summarize pow_half "rootless" "rootful" 3 thresholds_example runs_example
      = Some s /\
    feq (mean_weighted_score s) (Fin 70) /\
    stddev_weighted_score s = pow_half variance /\
    feq variance (Fin (200 # 3)) /\
    min_weighted_score s = Fin 60 /\
    max_weighted_score s = Fin 80 /\
    final_verdict s = StrongRootless /\
    classify thresholds_example (mean_weighted_score s) = MildRootless.
Proof. do 2 eexists. split; [reflexivity|]. repeat split. Qed.

(** The scores 60 and 80 have the variance 100 and the deviation 10. *)
Example summarize_two :
  exists s : Summary,
    summarize exact_root "rootless" "rootful" 2 thresholds_example
      [result_example 1 (Fin 60); result_example 2 (Fin 80)] = Some s /\
    feq (mean_weighted_score s) (Fin 70) /\
    stddev_weighted_score s = Fin 10.
Proof. eexists. split; [reflexivity|]. split; reflexivity. Qed.

(** With no repetition ([--reps 0]) the report holds the defaults. *)
Example evaluate_no_repetition (fetch_at : nat -> fetcher) (clock : nat -> Z) :
  evaluate exact_root fetch_at clock 7 "rootless" "rootful" metrics_example
    thresholds_example 0
  = Some {| compared_at := 7;
            summary :=
              {| rootless_target := "rootless";
                 rootful_target := "rootful";
                 repetitions := 0;
                 mean_weighted_score := Fin 50;
                 stddev_weighted_score := Fin 0;
                 min_weighted_score := Fin 50;
                 max_weighted_score := Fin 50;
                 thresholds := thresholds_example;
                 final_verdict := Inconclusive |};
            runs := [] |}.
Proof. reflexivity. Qed.

(** * Further properties

    Equalities and bounds between finite values are those of the exact
    arithmetic of [float]: on binary64 they hold up to rounding, and a
    result that underflows or overflows is outside the model. *)

(** ** The query of one container *)

Lemma split_last_none (c : ascii) (s : string) :
  split_last c s = None <-> contains c s = false.
Proof.
  induction s as [|a s IH]; simpl; [tauto|].
  destruct (split_last c s) as [[h t]|].
  - split; [discriminate|]. intros H. apply orb_false_iff in H.
    destruct H as [_ H]. apply IH in H. discriminate.
  - assert (Hc : contains c s = false) by now apply IH.
    rewrite Hc, orb_false_r. destruct (Ascii.eqb a c); split; congruence.
Qed.

(** The split is at the last occurrence: the tail has no [c]. *)
Lemma split_last_some (c : ascii) (s h t : string) :
  split_last c s = Some (h, t) ->
  s = h ++ String c t /\ contains c t = false.
Proof.
  revert h. induction s as [|a s IH]; simpl; intros h H; [discriminate|].
  destruct (split_last c s) as [[h' t']|] eqn:E.
  - inversion H; subst. destruct (IH h' eq_refl) as [-> Ht].
    split; [reflexivity | exact Ht].
  - destruct (Ascii.eqb a c) eqn:Ea; [|discriminate].
    inversion H; subst. apply Ascii.eqb_eq in Ea. subst a.
    split; [reflexivity | now apply split_last_none].
Qed.

Lemma split_last_app (c : ascii) (h t : string) :
  contains c t = false -> split_last c (h ++ String c t) = Some (h, t).
Proof.
  intros Ht. induction h as [|a h IH]; simpl.
  - apply split_last_none in Ht. now rewrite Ht, Ascii.eqb_refl.
  - now rewrite IH.
Qed.

Lemma append_assoc (s1 s2 s3 : string) : (s1 ++ s2) ++ s3 = s1 ++ (s2 ++ s3).
Proof. induction s1 as [|a s1 IH]; simpl; [reflexivity | now rewrite IH]. Qed.

Lemma contains_app (c : ascii) (s1 s2 : string) :
  contains c (s1 ++ s2) = contains c s1 || contains c s2.
Proof.
  induction s1 as [|a s1 IH]; simpl; [reflexivity|].
  now rewrite IH, orb_assoc.
Qed.

(** X1. [with_container] raises exactly on a base query that has an
    opening brace and no closing brace; every other base query gets its
    result. *)
Theorem with_container_raises_iff (base container : string) :
  with_container base container = None <->
  contains "{"%char base = true /\ contains "}"%char base = false.
Proof.
  unfold with_container, rsplit1.
  destruct (contains "{"%char base) eqn:Ho.
  - destruct (split_last "}"%char base) as [[h t]|] eqn:E; simpl.
    + split; [discriminate|]. intros [_ Hc].
      apply split_last_none in Hc. congruence.
    + split; [|reflexivity]. intros _. split; [reflexivity|].
      now apply split_last_none.
  - split; [discriminate|]. intros [H _]. discriminate.
Qed.

(** X2. On a base query with a matcher, the container label goes before the
    last closing brace: the text before that brace, earlier selectors
    included, and the text after it are kept as they are. *)
Theorem with_container_last_brace (head tail container : string) :
  contains "{"%char (head ++ String "}"%char tail) = true ->
  contains "}"%char tail = false ->
  with_container (head ++ String "}"%char tail) container =
  Some (head ++ ",container=" ++ dquote ++ container ++ dquote ++ "}" ++ tail).
Proof.
  intros Ho Hc. unfold with_container, rsplit1.
  rewrite Ho, (split_last_app _ _ _ Hc). reflexivity.
Qed.

(** The label joins the matcher of the second selector only. *)
Lemma with_container_last_brace_example :
  with_container "a{x=1} / b{y=2}[5m]" "web" =
  Some ("a{x=1} / b{y=2" ++ ",container=" ++ dquote ++ "web" ++ dquote ++ "}"
          ++ "[5m]").
Proof.
  apply (with_container_last_brace "a{x=1} / b{y=2" "[5m]" "web");
    reflexivity.
Defined.



(** ** The answer of the backend *)

Lemma read_sample_shape (parse_float : string -> option float) (result : json)
    (v : option float) (ok : bool) :
  read_sample parse_float result = Some (v, ok) ->
  (exists x, v = Some x /\ ok = true) \/ (v = None /\ ok = false).
Proof.
  unfold read_sample.
  destruct (py_index result 0) as [sample|]; [|discriminate]; cbn [bind].
  destruct (py_item sample "value") as [pair|]; [|discriminate]; cbn [bind].
  destruct (py_index pair 1) as [value|]; [|discriminate]; cbn [bind].
  destruct (py_float parse_float value) as [x|]; intros H; inversion H; subst.
  - left. now exists x.
  - now right.
Qed.

Lemma prom_query_eq (parse_float : string -> option float)
    (http : string -> option json) (query : string) :
  prom_query parse_float http query =
  data <- http query ;;
  status <- py_get data "status" JNull ;;
  if differs_from status "success" then None
  else
    inner <- py_get data "data" (JObj []) ;;
    result <- py_get inner "result" (JArr []) ;;
    if negb (truthy result) then Some (None, false)
    else read_sample parse_float result.
Proof. reflexivity. Qed.

(** Whatever [prom_query] returns is either a value with [ok = True] or no
    value with [ok = False]. *)
Lemma prom_query_shape (parse_float : string -> option float)
    (http : string -> option json) (query : string)
    (v : option float) (ok : bool) :
  prom_query parse_float http query = Some (v, ok) ->
  (exists x, v = Some x /\ ok = true) \/ (v = None /\ ok = false).
Proof.
  rewrite prom_query_eq.
  destruct (http query) as [data|]; [|discriminate]; cbn [bind].
  destruct (py_get data "status" JNull) as [status|]; [|discriminate]; cbn [bind].
  destruct (differs_from status "success"); [discriminate|].
  destruct (py_get data "data" (JObj [])) as [inner|]; [|discriminate]; cbn [bind].
  destruct (py_get inner "result" (JArr [])) as [result|]; [|discriminate];
    cbn [bind].
  destruct (negb (truthy result)).
  - intros H. inversion H. now right.
  - apply read_sample_shape.
Qed.

(** X4. [prom_query] returns a value exactly when it returns [ok = True]:
    its result is [(x, True)] for a float [x] or [(None, False)], for every
    answer of the backend. *)
Theorem prom_query_value_iff_ok (parse_float : string -> option float)
    (http : string -> option json) (query : string) :
  match prom_query parse_float http query with
  | Some (Some _, ok) => ok = true
  | Some (None, ok) => ok = false
  | None => True
  end.
Proof.
  destruct (prom_query parse_float http query) as [[v ok]|] eqn:E; [|exact I].
  destruct (prom_query_shape _ _ _ _ _ E) as [(x & -> & ->) | [-> ->]];
    reflexivity.
Qed.

(** X5. An answer with the status "success" and no sample is not an error:
    when the key "data" is missing, or "data" is a dict whose key "result"
    is missing, or the result is empty or null, [prom_query] returns
    [(None, False)]. *)
Theorem prom_query_no_sample (parse_float : string -> option float)
    (http : string -> option json) (query : string)
    (fields : list (string * json)) :
  http query = Some (JObj fields) ->
  dict_get fields "status" = Some (JStr "success") ->
  dict_get fields "data" = None \/
  (exists inner,
      dict_get fields "data" = Some (JObj inner) /\
      (dict_get inner "result" = None \/
       exists result,
         dict_get inner "result" = Some result /\ truthy result = false)) ->
  prom_query parse_float http query = Some (None, false).
Proof.
  intros Hq Hs Hd. rewrite prom_query_eq, Hq. cbn [bind py_get].
  rewrite Hs. cbn [bind differs_from String.eqb]. simpl differs_from.
  destruct Hd as [Hd | (inner & Hd & Hr)]; rewrite Hd; cbn [bind py_get].
  - reflexivity.
  - destruct Hr as [Hr | (result & Hr & Ht)]; rewrite Hr; cbn [bind].
    + reflexivity.
    + now rewrite Ht.
Qed.

Lemma prom_query_no_sample_example :
  prom_query parse_example http_example "mem_bytes" = Some (None, false).
Proof.
  eapply prom_query_no_sample.
  - reflexivity.
  - reflexivity.
  - right. eexists. split; [reflexivity|]. right.
    eexists. split; reflexivity.
Defined.

(** X6. [prom_query] raises on every answer that is not a dict with the
    status "success": a missing status, another status, or a body that is
    not a dict. *)
Theorem prom_query_needs_success (parse_float : string -> option float)
    (http : string -> option json) (query : string) (data : json) :
  http query = Some data ->
  (forall fields,
      data = JObj fields ->
      dict_get fields "status" <> Some (JStr "success")) ->
  prom_query parse_float http query = None.
Proof.
  intros Hq Hs. rewrite prom_query_eq, Hq. cbn [bind].
  destruct data as [| | | | |fields]; try reflexivity.
  cbn [py_get bind]. specialize (Hs fields eq_refl).
  destruct (dict_get fields "status") as [status|]; [|reflexivity].
  destruct status as [| | |s| |]; try reflexivity.
  simpl. destruct (String.eqb s "success") eqn:E; [|reflexivity].
  apply String.eqb_eq in E. subst s. now contradiction Hs.
Qed.

Lemma prom_query_needs_success_example :
  prom_query parse_example
    (fun _ => Some (JObj [("status", JStr "error"); ("error", JStr "bad query")]))
    "up" = None.
Proof.
  eapply prom_query_needs_success.
  - reflexivity.
  - intros fields H. inversion H; subst. simpl. discriminate.
Defined.



(** ** The fetcher of [main] in the loop *)

(** A metric whose entry raises makes the loop raise. *)
Lemma loop_raises (fetch : fetcher) (rootless_name rootful_name : string)
    (items : list (string * Config.metric)) (st : LoopState)
    (name : string) (spec : Config.metric) :
  In (name, spec) items ->
  entry_of fetch rootless_name rootful_name spec = None ->
  loop fetch rootless_name rootful_name st items = None.
Proof.
  revert st. induction items as [|[n s] items IH]; intros st Hin He;
    cbn [loop In] in *; [contradiction|].
  rewrite loop_body_eq.
  destruct Hin as [Heq | Hin].
  - inversion Heq; subst. now rewrite He.
  - destruct (entry_of fetch rootless_name rootful_name s); [|reflexivity].
    cbn [bind]. now apply IH.
Qed.

(** X8. A metric whose query has an opening brace and no closing brace
    aborts every repetition, whatever the backend answers and wherever the
    metric stands in the configuration. *)
Theorem unbalanced_query_aborts (parse_float : string -> option float)
    (http : string -> option json) (rootless_name rootful_name : string)
    (items : list (string * Config.metric)) (t : ThresholdSet) (i now : Z)
    (name : string) (spec : Config.metric) :
  In (name, spec) items ->
  contains "{"%char (Config.query spec) = true ->
  contains "}"%char (Config.query spec) = false ->
  run_repetition (fetch_via parse_float http) rootless_name rootful_name
    items t i now = None.
Proof.
  intros Hin Ho Hc. unfold run_repetition.
  rewrite (loop_raises _ _ _ _ _ name spec Hin); [reflexivity|].
  unfold entry_of, fetch_via.
  assert (Hw : with_container (Config.query spec) rootless_name = None).
  { unfold with_container, rsplit1. rewrite Ho.
    apply split_last_none in Hc. now rewrite Hc. }
  now rewrite Hw.
Qed.

Lemma unbalanced_query_aborts_example :
  run_repetition (fetch_via parse_example http_example) "rootless" "rootful"
    (metrics_example ++
     [("net", {| Config.query := "rate(net_bytes{job=1[5m])";
                 Config.weight := None; Config.direction := None |})])%list
    thresholds_example 0 0 = None.
Proof.
  eapply unbalanced_query_aborts.
  - right; right; left; reflexivity.
  - reflexivity.
  - reflexivity.
Defined.

Lemma dict_set_in {V : Type} (d : list (string * V)) (k : string) (v : V)
    (k0 : string) (v0 : V) :
  In (k0, v0) (dict_set d k v) -> In (k0, v0) d \/ v0 = v.
Proof.
  induction d as [|[k' v'] d IH]; simpl.
  - intros [H | []]. inversion H. now right.
  - destruct (String.eqb k' k); simpl.
    + intros [H | H]; [inversion H; now right | left; now right].
    + intros [H | H]; [left; now left|].
      destruct (IH H) as [H' | H']; [left; now right | now right].
Qed.

(** Every entry of [rep_metrics] was written by the loop body. *)
Lemma loop_entries_from (fetch : fetcher) (rootless_name rootful_name : string)
    (P : MetricResult -> Prop) (items : list (string * Config.metric))
    (st st' : LoopState) :
  (forall spec e, entry_of fetch rootless_name rootful_name spec = Some e -> P e) ->
  (forall n e, In (n, e) (rep_metrics st) -> P e) ->
  loop fetch rootless_name rootful_name st items = Some st' ->
  forall n e, In (n, e) (rep_metrics st') -> P e.
Proof.
  intros HP. revert st. induction items as [|[n0 s] items IH]; intros st Hst Hl;
    cbn [loop] in Hl.
  - now inversion Hl; subst.
  - rewrite loop_body_eq in Hl.
    destruct (entry_of fetch rootless_name rootful_name s) as [e0|] eqn:He;
      [|discriminate]. cbn [bind] in Hl.
    apply (fun Hrec => IH _ Hrec Hl).
    intros n e H. cbn [record_entry rep_metrics] in H.
    destruct (dict_set_in _ _ _ _ _ H) as [H' | ->];
      [now apply (Hst n) | now apply (HP s)].
Qed.



(** ** The thresholds as a dict *)

(** X10. On a dict with the four threshold keys, the chain of comparisons of
    [main] returns the verdict of [classify] on the record of these four
    values. *)
Theorem classify_dict_complete (thresholds : list (string * float))
    (t : ThresholdSet) (score : float) :
  thresholds_of thresholds = Some t ->
  classify_dict thresholds score = Some (classify t score).
Proof.
  unfold thresholds_of, classify_dict, classify.
  destruct (threshold thresholds "strong_rootless") as [t1|]; [|discriminate].
  destruct (threshold thresholds "mild_rootless") as [t2|]; [|discriminate].
  destruct (threshold thresholds "strong_rootful") as [t3|]; [|discriminate].
  destruct (threshold thresholds "mild_rootful") as [t4|]; [|discriminate].
  cbn [bind]. intros H. inversion H; subst t. simpl.
  destruct (score >=? t1)%float; [reflexivity|].
  destruct (score >=? t2)%float; [reflexivity|].
  destruct (score <=? t3)%float; [reflexivity|].
  destruct (score <=? t4)%float; reflexivity.
Qed.

Lemma classify_dict_complete_example :
  classify_dict thresholds_dict (Fin 30) = Some (classify thresholds_example (Fin 30)).
Proof.
  apply (classify_dict_complete thresholds_dict thresholds_example (Fin 30)).
  reflexivity.
Defined.

(** X11. A threshold key is read only when its comparison is reached: on a
    dict without "mild_rootful", the classification raises exactly for the
    scores that fail the three comparisons before it, and returns the verdict
    of these comparisons for every other score. *)
Theorem classify_dict_lazy (thresholds : list (string * float))
    (t1 t2 t3 : float) (score : float) :
  threshold thresholds "strong_rootless" = Some t1 ->
  threshold thresholds "mild_rootless" = Some t2 ->
  threshold thresholds "strong_rootful" = Some t3 ->
  threshold thresholds "mild_rootful" = None ->
  (classify_dict thresholds score = None <->
   (score >=? t1)%float = false /\ (score >=? t2)%float = false /\
   (score <=? t3)%float = false) /\
  ((score >=? t1)%float = true ->
   classify_dict thresholds score = Some StrongRootless) /\
  ((score >=? t1)%float = false -> (score >=? t2)%float = true ->
   classify_dict thresholds score = Some MildRootless) /\
  ((score >=? t1)%float = false -> (score >=? t2)%float = false ->
   (score <=? t3)%float = true ->
   classify_dict thresholds score = Some StrongRootful).
Proof.
  intros H1 H2 H3 H4. unfold classify_dict. rewrite H1, H2, H3, H4. cbn [bind].
  destruct (score >=? t1)%float, (score >=? t2)%float, (score <=? t3)%float;
    cbn [bind]; repeat split; intros; try discriminate; try tauto;
    try (destruct H as (? & ? & ?); discriminate).
Qed.

Lemma classify_dict_lazy_example :
  classify_dict thresholds_partial (Fin 20) = Some StrongRootful.
Proof.
  apply (classify_dict_lazy thresholds_partial (Fin 75) (Fin 60) (Fin 25) (Fin 20));
    reflexivity.
Defined.

(** ** The score normaliser on finite samples *)

(** The absolute value of a rational in the context, by its sign. *)
Ltac abs_cases a :=
  let H := fresh "Habs" in
  let S := fresh "Hsign" in
  destruct (Qlt_le_dec a 0) as [S | S];
  [ assert (H : Qabs a == - a) by (apply Qabs_neg; lra)
  | assert (H : Qabs a == a) by (apply Qabs_pos; lra) ].

(** The delta of two finite samples, without the division: 0 when both are
    zero; otherwise 1 or -1 when [2 * (a - b)] reaches the sum of the
    absolute values, and the quotient of the two in between. *)
Lemma clamped_rel_cases (a b : Q) :
  exists r : Q,
    clamped_rel (Fin a) (Fin b) = Some (Fin r) /\
    ((Qabs a + Qabs b == 0 /\ r == 0) \/
     (0 < Qabs a + Qabs b /\
      ((Qabs a + Qabs b <= 2 * (a - b) /\ r == 1) \/
       (2 * (a - b) <= - (Qabs a + Qabs b) /\ r == -1) \/
       (- (Qabs a + Qabs b) < 2 * (a - b) /\ 2 * (a - b) < Qabs a + Qabs b /\
        r * (Qabs a + Qabs b) == 2 * (a - b))))).
Proof.
  unfold clamped_rel. simpl.
  pose proof (Qabs_nonneg a) as Ha. pose proof (Qabs_nonneg b) as Hb.
  set (d := Qabs a + Qabs b) in *.
  destruct (Qeq_bool d 0) eqn:Hd.
  - exists 0. q_props. split; [reflexivity|]. left. split; [exact Hd | reflexivity].
  - q_props.
    assert (Hpos : 0 < d) by (unfold d in *; lra).
    assert (Hh : Qeq_bool (d / 2) 0 = false).
    { q_goal. intro H. assert (E : d == (d / 2) * 2) by field. lra. }
    rewrite Hh. simpl.
    set (x := (a + - b) / (d / 2)).
    assert (Hx : x * d == 2 * (a - b)).
    { unfold x. field. lra. }
    unfold py_max, py_min, fgtb. simpl.
    destruct (Qltb x 1) eqn:E1; simpl.
    + destruct (Qltb (-1) x) eqn:E2; q_props.
      * exists x. split; [reflexivity|]. right. split; [exact Hpos|].
        right; right. repeat split; try exact Hx; nra.
      * exists (-1). split; [reflexivity|]. right. split; [exact Hpos|].
        right; left. split; [nra | reflexivity].
    + q_props. exists 1. split; [reflexivity|]. right. split; [exact Hpos|].
      left. split; [nra | reflexivity].
Qed.

(** The score of a delta of [[-1, 1]] is [50 + 50 * rel]: the second clamp
    changes nothing. *)
Lemma score_of_value (r : Q) :
  -1 <= r <= 1 ->
  exists s : Q, score_of (Fin r) = Fin s /\ s == 50 + r * 50.
Proof.
  intros Hr. unfold score_of, py_max, py_min, fgtb. simpl.
  destruct (Qltb (50 + r * 50) 100) eqn:E1; simpl.
  - destruct (Qltb 0 (50 + r * 50)) eqn:E2; q_props.
    + eexists. split; reflexivity.
    + exists 0. split; [reflexivity | lra].
  - q_props. exists 100. split; [reflexivity | lra].
Qed.

(** The result of [compute_score] from the clamped delta [r]. *)
Lemma compute_score_from (rootless rootful weight : float) (direction : string)
    (r : Q) :
  clamped_rel rootless rootful = Some (Fin r) ->
  -1 <= r <= 1 ->
  exists rel s : Q,
    compute_score rootless rootful weight direction
      = Some (Fin rel, (Fin s * weight)%float) /\
    rel = (if String.eqb direction "lower" then - r else r) /\
    s == 50 + rel * 50.
Proof.
  intros Hc Hr. rewrite compute_score_eq, Hc. cbn [bind].
  destruct (String.eqb direction "lower").
  - destruct (score_of_value (- r)) as (s & Hs & Hv); [lra|].
    exists (- r), s. simpl. rewrite Hs. repeat split. exact Hv.
  - destruct (score_of_value r) as (s & Hs & Hv); [lra|].
    exists r, s. rewrite Hs. repeat split. exact Hv.
Qed.

Lemma clamped_rel_cases_range (a b r : Q) :
  clamped_rel (Fin a) (Fin b) = Some (Fin r) -> -1 <= r <= 1.
Proof.
  intros H. destruct (clamped_rel_range (Fin a) (Fin b)) as (r' & H' & Hr).
  rewrite H in H'. inversion H'; subst. exact Hr.
Qed.

(** Two quotients compare as their cross products do. *)
Lemma quotient_le (x y D D' N N' : Q) :
  0 < D -> 0 < D' -> x * D == N -> y * D' == N' -> N * D' <= N' * D -> x <= y.
Proof.
  intros HD HD' Hx Hy H.
  assert (E : x * (D * D') <= y * (D * D')).
  { setoid_replace (x * (D * D')) with (N * D') by (rewrite <- Hx; ring).
    setoid_replace (y * (D * D')) with (N' * D) by (rewrite <- Hy; ring).
    exact H. }
  assert (P : 0 < D * D') by nra.
  apply Qmult_le_r in E; assumption.
Qed.





(** X15. A sample that is NaN or infinite, on either side, decides the
    result whatever the other sample is: the delta is 1 and the score 100 for
    [direction = "higher"], the delta is -1 and the score 0 for
    [direction = "lower"]. *)
Theorem compute_score_not_finite (rootless rootful weight : float) :
  is_finite rootless = false \/ is_finite rootful = false ->
  compute_score rootless rootful weight "higher"
    = Some (Fin 1, (Fin 100 * weight)%float) /\
  compute_score rootless rootful weight "lower"
    = Some (Fin (- (1)), (Fin 0 * weight)%float).
Proof.
  intros [H | H].
  - destruct rootless as [a| | |]; [discriminate| | |];
      destruct rootful as [b| | |]; split; reflexivity.
  - destruct rootful as [b| | |]; [discriminate| | |];
      destruct rootless as [a| | |]; split; reflexivity.
Qed.

Lemma compute_score_not_finite_example :
  compute_score (Fin 5) NaN (Fin 1) "higher"
    = Some (Fin 1, (Fin 100 * Fin 1)%float) /\
  compute_score (Fin 5) NaN (Fin 1) "lower"
    = Some (Fin (- (1)), (Fin 0 * Fin 1)%float).
Proof.
  apply (compute_score_not_finite (Fin 5) NaN (Fin 1)). right. reflexivity.
Defined.





(** ** One repetition: further properties *)

Lemma fadd_zero_r (x : float) (z : Q) : z == 0 -> feq (x + Fin z)%float x.
Proof. intros Hz. destruct x; simpl; auto. lra. Qed.

(** The contribution of a scored entry is the product of a finite score of
    [[0, 100]] and the weight. *)
Lemma entry_of_contrib (fetch : fetcher) (rootless_name rootful_name : string)
    (spec : Config.metric) (e : MetricResult) :
  entry_of fetch rootless_name rootful_name spec = Some e ->
  weight e = weight_of spec /\
  (included e = false /\ weighted_score_contrib e = None \/
   included e = true /\
   exists s : Q,
     weighted_score_contrib e = Some (Fin s * weight_of spec)%float /\
     0 <= s <= 100).
Proof.
  unfold entry_of.
  destruct (fetch (Config.query spec) rootless_name) as [[rl_val rl_ok]|];
    [|discriminate]; cbn [bind].
  destruct (fetch (Config.query spec) rootful_name) as [[rf_val rf_ok]|];
    [|discriminate]; cbn [bind].
  destruct (negb (rl_ok && rf_ok)).
  - intros H. inversion H; subst e. simpl. auto.
  - destruct (compute_score_returns (or_zero rl_val) (or_zero rf_val)
                (weight_of spec) (direction_of spec)) as (r & _ & Hr & Hc).
    rewrite Hc.
    destruct (String.eqb (direction_of spec) "lower"); cbn [bind].
    + destruct (score_of_range (- r)) as (s & Hs & Hsb); [lra|].
      intros H. inversion H; subst e. simpl. split; [reflexivity|]. right.
      split; [reflexivity|]. exists s. now rewrite Hs.
    + destruct (score_of_range r) as (s & Hs & Hsb); [lra|].
      intros H. inversion H; subst e. simpl. split; [reflexivity|]. right.
      split; [reflexivity|]. exists s. now rewrite Hs.
Qed.

(** Dropping the metrics of weight zero keeps the two sums. *)
Lemma loop_filter_weighs (fetch : fetcher) (rootless_name rootful_name : string)
    (items : list (string * Config.metric)) (st1 st2 st1' : LoopState) :
  feq (total_weight st1) (total_weight st2) ->
  feq (weighted_sum st1) (weighted_sum st2) ->
  loop fetch rootless_name rootful_name st1 items = Some st1' ->
  exists st2',
    loop fetch rootless_name rootful_name st2 (filter weighs items) = Some st2' /\
    feq (total_weight st1') (total_weight st2') /\
    feq (weighted_sum st1') (weighted_sum st2').
Proof.
  revert st1 st2. induction items as [|[n s] items IH]; intros st1 st2 Hw Hs Hl;
    cbn [loop filter] in *.
  - inversion Hl; subst. eexists; split; [reflexivity|]. split; assumption.
  - rewrite loop_body_eq in Hl.
    destruct (entry_of fetch rootless_name rootful_name s) as [e|] eqn:He;
      [|discriminate]. cbn [bind] in Hl.
    destruct (entry_of_contrib _ _ _ _ _ He) as (Hwe & Hc).
    destruct (weighs (n, s)) eqn:Hz.
    + cbn [loop]. rewrite loop_body_eq, He. cbn [bind].
      eapply IH; [| |exact Hl]; unfold record_entry; simpl.
      * destruct (included e); [apply fadd_feq; [exact Hw | apply feq_refl] | exact Hw].
      * destruct (weighted_score_contrib e);
          [apply fadd_feq; [exact Hs | apply feq_refl] | exact Hs].
    + unfold weighs in Hz. simpl in Hz. apply negb_false_iff in Hz.
      destruct (weight_of s) as [q| | |] eqn:Eq; simpl in Hz; try discriminate.
      q_props.
      eapply IH; [| |exact Hl]; unfold record_entry; simpl.
      * destruct Hc as [[-> _] | [-> _]]; [exact Hw|].
        rewrite Hwe. eapply feq_trans; [apply fadd_zero_r, Hz | exact Hw].
      * destruct Hc as [[_ ->] | [_ (sc & -> & _)]]; [exact Hs|].
        simpl. eapply feq_trans; [apply fadd_zero_r | exact Hs].
        rewrite Hz. ring.
Qed.

(** X18. A metric of weight zero (or without the key "weight") has no
    influence: the repetition run without such metrics returns the same
    [weighted_score], [effective_weight] and verdict. *)
Theorem zero_weight_no_influence
    (fetch : fetcher) (rootless_name rootful_name : string)
    (items : list (string * Config.metric)) (t : ThresholdSet) (i now : Z)
    (r : RepetitionResult) :
  run_repetition fetch rootless_name rootful_name items t i now = Some r ->
  exists r' : RepetitionResult,
    run_repetition fetch rootless_name rootful_name (filter weighs items) t i now
      = Some r' /\
    feq (weighted_score r) (weighted_score r') /\
    feq (effective_weight r) (effective_weight r') /\
    verdict r = verdict r'.
Proof.
  unfold run_repetition. intros Hr.
  destruct (loop fetch rootless_name rootful_name loop_init items) as [st|] eqn:Hl;
    [|discriminate]. cbn [bind] in Hr.
  destruct (aggregate st) as [s|] eqn:Ha; [|discriminate]. cbn [bind] in Hr.
  inversion Hr; subst r. clear Hr.
  destruct (loop_filter_weighs fetch rootless_name rootful_name items
              loop_init loop_init st (feq_refl _) (feq_refl _) Hl)
    as (st' & Hl' & Hw & Hs).
  rewrite Hl'. cbn [bind].
  pose proof (aggregate_feq st st' Hw Hs) as Hagg. rewrite Ha in Hagg.
  destruct (aggregate st') as [s'|]; [|contradiction]. cbn [bind opt_feq] in *.
  eexists. split; [reflexivity|].
  cbn [weighted_score effective_weight verdict].
  split; [exact Hagg|]. split; [exact Hw|]. now apply classify_feq.
Qed.

Lemma zero_weight_no_influence_example :
  exists r' : RepetitionResult,
    run_repetition fetch_complete "rootless" "rootful"
      (filter weighs
         (metrics_example ++
          [("net", {| Config.query := "net_bytes"; Config.weight := None;
                      Config.direction := None |})])%list)
      thresholds_example 0 0 = Some r' /\
    verdict r' = MildRootless /\
    feq (effective_weight r') (Fin 3).
Proof.
  destruct (zero_weight_no_influence fetch_complete "rootless" "rootful"
              (metrics_example ++
               [("net", {| Config.query := "net_bytes"; Config.weight := None;
                           Config.direction := None |})])%list
              thresholds_example 0 0 _ eq_refl)
    as (r' & Hr & _ & Hw & Hv).
  exists r'. split; [exact Hr|]. split; [now rewrite <- Hv|].
  destruct (effective_weight r') as [q| | |]; simpl in *; try contradiction.
  now rewrite <- Hw.
Defined.

(** Both containers deliver the same finite sample for the metric. *)
Lemma entry_of_equal (fetch : fetcher) (rootless_name rootful_name : string)
    (spec : Config.metric) (q w : Q) :
  fetch (Config.query spec) rootless_name = Some (Some (Fin q), true) ->
  fetch (Config.query spec) rootful_name = Some (Some (Fin q), true) ->
  weight_of spec = Fin w ->
  exists (e : MetricResult) (s : Q),
    entry_of fetch rootless_name rootful_name spec = Some e /\
    included e = true /\ weight e = Fin w /\
    weighted_score_contrib e = Some (Fin (s * w)) /\ s == 50.
Proof.
  intros H1 H2 Hw. unfold entry_of. rewrite H1, H2, Hw. cbn [bind andb negb].
  assert (Hz : exists q', or_zero (Some (Fin q)) = Fin q').
  { simpl. destruct (Qeq_bool q 0); eexists; reflexivity. }
  destruct Hz as (q' & ->).
  destruct (clamped_rel_equal q') as (r & Hr & Hr0).
  destruct (compute_score_from _ _ (Fin w) (direction_of spec) r Hr)
    as (rel & s & Hc & Hrel & Hs); [lra|].
  rewrite Hc. cbn [bind]. eexists; exists s.
  split; [reflexivity|]. simpl. repeat split.
  subst rel. destruct (String.eqb (direction_of spec) "lower"); lra.
Qed.



(** X20. The result of a repetition has one entry for every configured
    metric, scored or excluded, under the names and in the order of the
    configuration. *)
Theorem metrics_keys_in_order
    (fetch : fetcher) (rootless_name rootful_name : string)
    (items : list (string * Config.metric)) (t : ThresholdSet) (i now : Z)
    (r : RepetitionResult) :
  NoDup (map fst items) ->
  run_repetition fetch rootless_name rootful_name items t i now = Some r ->
  map fst (metrics r) = map fst items /\
  List.length (metrics r) = List.length items /\
  Forall2 (fun ne item =>
             entry_of fetch rootless_name rootful_name (snd item) = Some (snd ne))
          (metrics r) items.
Proof.
  intros Hnd Hr. unfold run_repetition in Hr. rewrite loop_entries in Hr.
  destruct (entries fetch rootless_name rootful_name items) as [es|] eqn:E;
    [|discriminate]. cbn [bind] in Hr.
  destruct (aggregate (record_all es loop_init)) as [s|]; [|discriminate].
  cbn [bind] in Hr. inversion Hr; subst r. cbn [metrics].
  pose proof (entries_names _ _ _ _ _ E) as Hn.
  rewrite record_all_rep_metrics by (simpl; now rewrite Hn).
  simpl. split; [exact Hn|]. split.
  - rewrite <- (length_map fst es), Hn. apply length_map.
  - clear Hn Hnd Hr. revert es E. induction items as [|[n sp] items IH]; intros es E;
      cbn [entries] in E.
    + inversion E. constructor.
    + destruct (entry_of fetch rootless_name rootful_name sp) as [e|] eqn:He;
        [|discriminate]. cbn [bind] in E.
      destruct (entries fetch rootless_name rootful_name items) as [es0|];
        [|discriminate]. cbn [bind] in E. inversion E; subst es.
      constructor; [exact He | now apply IH].
Qed.

Lemma metrics_keys_in_order_example :
  exists r : RepetitionResult,
    run_repetition fetch_example "rootless" "rootful" metrics_example
      thresholds_example 0 0 = Some r /\
    map fst (metrics r) = ["cpu"; "mem"].
Proof.
  eexists. split; [reflexivity|].
  apply (metrics_keys_in_order fetch_example "rootless" "rootful"
           metrics_example thresholds_example 0 0 _ metrics_example_nodup eq_refl).
Defined.

(** The entries of a metric and of the same metric with its weight scaled:
    both scored or both excluded, with the same score. *)
Lemma entry_of_scaled (fetch : fetcher) (rootless_name rootful_name : string)
    (k w : Q) (name : string) (spec : Config.metric) (e : MetricResult) :
  weight_of spec = Fin w ->
  entry_of fetch rootless_name rootful_name spec = Some e ->
  exists e' : MetricResult,
    entry_of fetch rootless_name rootful_name (snd (scale_weight k (name, spec)))
      = Some e' /\
    (included e = false /\ weighted_score_contrib e = None /\
     included e' = false /\ weighted_score_contrib e' = None \/
     exists (s w' : Q),
       w' == k * w /\
       included e = true /\ weight e = Fin w /\
       weighted_score_contrib e = Some (Fin (s * w)) /\
       included e' = true /\ weight e' = Fin w' /\
       weighted_score_contrib e' = Some (Fin (s * w'))).
Proof.
  intros Hw. unfold entry_of. cbn [scale_weight snd fst Config.query].
  assert (Hw' : exists w', weight_of (snd (scale_weight k (name, spec))) = Fin w'
                           /\ w' == k * w).
  { unfold weight_of in *. simpl.
    destruct (Config.weight spec) as [x|]; simpl.
    - subst x. eexists. split; reflexivity.
    - inversion Hw. exists 0. split; [reflexivity | ring]. }
  destruct Hw' as (w' & Hw' & Ew'). cbn [scale_weight snd fst] in Hw'.
  rewrite Hw, Hw'.
  replace (direction_of
             {| Config.query := Config.query spec;
                Config.weight := option_map (fmul (Fin k)) (Config.weight spec);
                Config.direction := Config.direction spec |})
    with (direction_of spec) by reflexivity.
  destruct (fetch (Config.query spec) rootless_name) as [[rl_val rl_ok]|];
    [|discriminate]; cbn [bind].
  destruct (fetch (Config.query spec) rootful_name) as [[rf_val rf_ok]|];
    [|discriminate]; cbn [bind].
  destruct (negb (rl_ok && rf_ok)).
  - intros H. inversion H; subst e. eexists. split; [reflexivity|].
    left. simpl. auto.
  - rewrite !compute_score_eq.
    destruct (clamped_rel_range (or_zero rl_val) (or_zero rf_val)) as (r & -> & Hr).
    cbn [bind].
    set (rel := if String.eqb (direction_of spec) "lower" then (- Fin r)%float
                else Fin r).
    assert (Hs : exists s : Q, score_of rel = Fin s).
    { unfold rel. destruct (String.eqb (direction_of spec) "lower").
      - destruct (score_of_range (- r)) as (s & Hs & _); [lra|]. now exists s.
      - destruct (score_of_range r) as (s & Hs & _); [lra|]. now exists s. }
    destruct Hs as (s & Hs). rewrite Hs.
    intros H. inversion H; subst e. eexists. split; [reflexivity|].
    right. exists s, w'. simpl. repeat split. exact Ew'.
Qed.


Lemma metrics_example_finite :
  Forall (fun item => is_finite (weight_of (snd item)) = true) metrics_example.
Proof. repeat constructor. Qed.


(** ** The repetitions and the report *)

Lemma run_repetition_fields (fetch : fetcher) (rootless_name rootful_name : string)
    (items : list (string * Config.metric)) (t : ThresholdSet) (i now : Z)
    (r : RepetitionResult) :
  run_repetition fetch rootless_name rootful_name items t i now = Some r ->
  rep r = (i + 1)%Z /\ timestamp r = now /\
  verdict r = classify t (weighted_score r).
Proof.
  unfold run_repetition.
  destruct (loop fetch rootless_name rootful_name loop_init items) as [st|];
    [|discriminate]. cbn [bind].
  destruct (aggregate st) as [s|]; [|discriminate]. cbn [bind].
  intros H. inversion H; subst r. simpl. auto.
Qed.

(** The repetitions that the loop returns are those of the indexes from [i]
    on, in order. *)
Lemma repeat_from_nth (fetch_at : nat -> fetcher) (clock : nat -> Z)
    (rootless_name rootful_name : string)
    (items : list (string * Config.metric)) (t : ThresholdSet)
    (count i : nat) (rs : list RepetitionResult) :
  repeat_from fetch_at clock rootless_name rootful_name items t i count = Some rs ->
  List.length rs = count /\
  forall j r,
    nth_error rs j = Some r ->
    run_repetition (fetch_at (i + j)%nat) rootless_name rootful_name items t
      (Z.of_nat (i + j)) (clock (i + j)%nat) = Some r.
Proof.
  revert i rs. induction count as [|count IH]; intros i rs H; cbn [repeat_from] in H.
  - inversion H; subst. split; [reflexivity|]. intros [|j] r Hj; discriminate.
  - destruct (run_repetition (fetch_at i) rootless_name rootful_name items t
                (Z.of_nat i) (clock i)) as [r0|] eqn:E0; [|discriminate].
    cbn [bind] in H.
    destruct (repeat_from fetch_at clock rootless_name rootful_name items t
                (S i) count) as [rs0|] eqn:E; [|discriminate].
    cbn [bind] in H. inversion H; subst rs.
    destruct (IH _ _ E) as (Hlen & Hnth).
    split; [simpl; now rewrite Hlen|].
    intros [|j] r Hj; simpl in Hj.
    + inversion Hj; subst. now rewrite Nat.add_0_r.
    + rewrite Nat.add_succ_r. apply (Hnth j r Hj).
Qed.

(** The loop over the repetitions raises as soon as one repetition does. *)
Lemma repeat_from_raises (fetch_at : nat -> fetcher) (clock : nat -> Z)
    (rootless_name rootful_name : string)
    (items : list (string * Config.metric)) (t : ThresholdSet)
    (count i j : nat) :
  (j < count)%nat ->
  run_repetition (fetch_at (i + j)%nat) rootless_name rootful_name items t
    (Z.of_nat (i + j)) (clock (i + j)%nat) = None ->
  repeat_from fetch_at clock rootless_name rootful_name items t i count = None.
Proof.
  revert i j. induction count as [|count IH]; intros i j Hj Hn; [lia|].
  cbn [repeat_from].
  destruct j as [|j].
  - rewrite Nat.add_0_r in Hn. now rewrite Hn.
  - destruct (run_repetition (fetch_at i) _ _ _ _ _ _); [|reflexivity].
    cbn [bind]. rewrite (IH (S i) j); [reflexivity | lia |].
    now rewrite Nat.add_succ_r in Hn.
Qed.

(** The summary is computed without an error. *)
Lemma summarize_returns (pow_half : float -> float)
    (rootless_name rootful_name : string) (reps : Z) (t : ThresholdSet)
    (results : list RepetitionResult) :
  exists s, summarize pow_half rootless_name rootful_name reps t results = Some s.
Proof.
  unfold summarize. destruct results as [|first rest].
  - eexists. reflexivity.
  - cbn [map].
    destruct (mean_of_average (weighted_score first) (map weighted_score rest))
      as (m & Hm & Hma).
    destruct (variance_of_population m (weighted_score first)
                (map weighted_score rest) Hma) as (v & Hv & _).
    rewrite Hm. cbn [bind]. rewrite Hv. cbn [bind]. eexists. reflexivity.
Qed.

(** X22. A report holds one result for each of the [reps] repetitions, in
    order: the result at index [j] is the one of repetition [j], numbered
    [j + 1] and stamped with the clock of that repetition, and its verdict
    is the classification of its score; the summary records [reps] as it
    was given. *)
Theorem evaluate_runs (pow_half : float -> float) (fetch_at : nat -> fetcher)
    (clock : nat -> Z) (final_time : Z) (rootless_name rootful_name : string)
    (items : list (string * Config.metric)) (t : ThresholdSet) (reps : Z)
    (report : Report) :
  evaluate pow_half fetch_at clock final_time rootless_name rootful_name
    items t reps = Some report ->
  List.length (runs report) = Z.to_nat reps /\
  repetitions (summary report) = reps /\
  compared_at report = final_time /\
  forall j r,
    nth_error (runs report) j = Some r ->
    run_repetition (fetch_at j) rootless_name rootful_name items t
      (Z.of_nat j) (clock j) = Some r /\
    rep r = (Z.of_nat j + 1)%Z /\
    timestamp r = clock j /\
    verdict r = classify t (weighted_score r).
Proof.
  unfold evaluate. intros H.
  destruct (repeat_from fetch_at clock rootless_name rootful_name items t 0
              (Z.to_nat reps)) as [rs|] eqn:E; [|discriminate].
  cbn [bind] in H.
  destruct (summarize pow_half rootless_name rootful_name reps t rs) as [s|] eqn:Es;
    [|discriminate].
  cbn [bind] in H. inversion H; subst report. cbn [runs summary compared_at].
  destruct (repeat_from_nth _ _ _ _ _ _ _ _ _ E) as (Hlen & Hnth).
  split; [exact Hlen|]. split; [|split; [reflexivity|]].
  - unfold summarize in Es.
    destruct (mean_of (map weighted_score rs)); [|discriminate]. cbn [bind] in Es.
    destruct (variance_of _ _); [|discriminate]. cbn [bind] in Es.
    inversion Es. reflexivity.
  - intros j r Hj. pose proof (Hnth j r Hj) as Hr. simpl in Hr.
    split; [exact Hr|]. apply (run_repetition_fields _ _ _ _ _ _ _ _ Hr).
Qed.

Lemma evaluate_runs_example :
  exists report : Report,
    evaluate exact_root (fun _ => fetch_complete) (fun j => Z.of_nat j) 9
      "rootless" "rootful" metrics_example thresholds_example 2 = Some report /\
    List.length (runs report) = 2%nat /\
    map rep (runs report) = [1%Z; 2%Z].
Proof.
  eexists. split; [reflexivity|].
  split; [|reflexivity].
  apply (evaluate_runs exact_root (fun _ => fetch_complete) (fun j => Z.of_nat j) 9
           "rootless" "rootful" metrics_example thresholds_example 2 _ eq_refl).
Defined.



(** X24. With [reps <= 0] no repetition is run and nothing is fetched: the
    report has no run, its summary holds the defaults (mean, minimum and
    maximum 50, verdict "inconclusive", the deviation [0.0 ** 0.5]) and
    records [reps] as it was given, negative or not. *)
Theorem evaluate_no_repetitions (pow_half : float -> float)
    (fetch_at : nat -> fetcher) (clock : nat -> Z) (final_time : Z)
    (rootless_name rootful_name : string)
    (items : list (string * Config.metric)) (t : ThresholdSet) (reps : Z) :
  (reps <= 0)%Z ->
  evaluate pow_half fetch_at clock final_time rootless_name rootful_name
    items t reps
  = Some {| compared_at := final_time;
            summary :=
              {| rootless_target := rootless_name;
                 rootful_target := rootful_name;
                 repetitions := reps;
                 mean_weighted_score := Fin 50;
                 stddev_weighted_score := pow_half (Fin 0);
                 min_weighted_score := Fin 50;
                 max_weighted_score := Fin 50;
                 thresholds := t;
                 final_verdict := Inconclusive |};
            runs := [] |}.
Proof.
  intros H. unfold evaluate.
  assert (E : Z.to_nat reps = 0%nat) by lia.
  rewrite E. reflexivity.
Qed.

Lemma evaluate_no_repetitions_example :
  evaluate exact_root (fun _ _ _ => None) (fun _ => 0%Z) 9 "rootless" "rootful"
    metrics_example thresholds_example (-3)
  = Some {| compared_at := 9;
            summary :=
              {| rootless_target := "rootless";
                 rootful_target := "rootful";
                 repetitions := -3;
                 mean_weighted_score := Fin 50;
                 stddev_weighted_score := exact_root (Fin 0);
                 min_weighted_score := Fin 50;
                 max_weighted_score := Fin 50;
                 thresholds := thresholds_example;
                 final_verdict := Inconclusive |};
            runs := [] |}.
Proof.
  apply (evaluate_no_repetitions exact_root (fun _ _ _ => None) (fun _ => 0%Z) 9
           "rootless" "rootful" metrics_example thresholds_example (-3)).
  discriminate.
Defined.

(** ** Bounds on the summary *)

Lemma py_len_succ (n : nat) :
  inject_Z (Z.of_nat (S n)) == inject_Z (Z.of_nat n) + 1.
Proof. rewrite Nat2Z.inj_succ. unfold Z.succ. now rewrite inject_Z_plus. Qed.

Lemma py_len_nonneg (n : nat) : 0 <= inject_Z (Z.of_nat n).
Proof. unfold Qle. simpl. lia. Qed.

Lemma Qsquare_nonneg (d : Q) : 0 <= d * d.
Proof.
  destruct (Qlt_le_dec d 0) as [H | H].
  - assert (E : d * d == (- d) * (- d)) by ring. rewrite E.
    apply Qmult_le_0_compat; lra.
  - apply Qmult_le_0_compat; lra.
Qed.

Lemma Qsquare_zero (d : Q) : d * d == 0 <-> d == 0.
Proof.
  split; intros H; [|rewrite H; ring].
  destruct (Qmult_integral _ _ H); assumption.
Qed.

(** A sum of values between [lo] and [hi] is finite, and lies between the
    start plus [lo] and [hi] times their number. *)
Lemma fold_fadd_in_range (lo hi : Q) (xs : list float) (a : Q) :
  Forall (in_range lo hi) xs ->
  exists s : Q,
    fold_left fadd xs (Fin a) = Fin s /\
    a + inject_Z (Z.of_nat (List.length xs)) * lo <= s /\
    s <= a + inject_Z (Z.of_nat (List.length xs)) * hi.
Proof.
  revert a. induction xs as [|x xs IH]; intros a H.
  - exists a. cbn [fold_left List.length].
    change (inject_Z (Z.of_nat 0)) with 0. repeat split; lra.
  - inversion H as [|? ? Hx Hxs]; subst.
    destruct x as [q| | |]; simpl in Hx; try contradiction.
    destruct (IH (a + q) Hxs) as (s & Hs & Hlo & Hhi).
    exists s. split; [exact Hs|].
    pose proof (py_len_succ (List.length xs)) as E.
    cbn [List.length]. rewrite E. split; nra.
Qed.

(** The mean of values between [lo] and [hi] lies between [lo] and [hi]. *)
Lemma mean_of_in_range (lo hi : Q) (x : float) (xs : list float) :
  Forall (in_range lo hi) (x :: xs) ->
  exists m : Q, mean_of (x :: xs) = Some (Fin m) /\ lo <= m <= hi.
Proof.
  intros H. unfold mean_of, py_sum, py_len.
  destruct (fold_fadd_in_range lo hi (x :: xs) 0 H) as (s & Hs & Hlo & Hhi).
  rewrite Hs. unfold fdiv.
  pose proof (py_len_succ (List.length xs)) as E.
  pose proof (py_len_nonneg (List.length xs)) as Hn.
  cbn [List.length] in *.
  set (n := inject_Z (Z.of_nat (S (List.length xs)))) in *.
  assert (Hpos : 0 < n) by lra.
  assert (Hz : Qeq_bool n 0 = false) by (q_goal; lra).
  rewrite Hz. exists (s / n). split; [reflexivity|].
  assert (Es : s == (s / n) * n) by (field; lra).
  split; nra.
Qed.

(** A sum of values [>= 0] is finite and not below its start, which it
    equals exactly when every value is zero. *)
Lemma fold_fadd_nonneg (xs : list float) (a : Q) :
  Forall nonneg xs ->
  exists s : Q,
    fold_left fadd xs (Fin a) = Fin s /\ a <= s /\
    (s == a <-> Forall (fun x => feq x (Fin 0)) xs).
Proof.
  revert a. induction xs as [|x xs IH]; intros a H.
  - exists a. simpl. repeat split; try lra; auto.
  - inversion H as [|? ? Hx Hxs]; subst.
    destruct x as [q| | |]; simpl in Hx; try contradiction.
    destruct (IH (a + q) Hxs) as (s & Hs & Hle & Hiff).
    exists s. split; [exact Hs|]. split; [lra|]. split.
    + intros E. assert (Hq : q == 0) by lra.
      constructor; [exact Hq|]. apply Hiff. lra.
    + intros Hall. inversion Hall as [|? ? Hq Hrest]; subst. simpl in Hq.
      apply Hiff in Hrest. lra.
Qed.

(** The squared deviations of finite values from a finite mean. *)
Lemma deviations_nonneg (m : Q) (xs : list float) :
  Forall (fun x => is_finite x = true) xs ->
  Forall nonneg (map (fun s => square (s - Fin m)%float) xs).
Proof.
  intros H. induction H as [|x xs Hx _ IH]; simpl; constructor; [|exact IH].
  destruct x as [q| | |]; try discriminate.
  cbn [nonneg square fsub fopp fadd fmul]. apply Qsquare_nonneg.
Qed.

Lemma deviations_zero (m : Q) (xs : list float) :
  Forall (fun x => is_finite x = true) xs ->
  Forall (fun x => feq x (Fin 0)) (map (fun s => square (s - Fin m)%float) xs) <->
  Forall (fun x => feq x (Fin m)) xs.
Proof.
  intros H. induction H as [|x xs Hx _ IH]; simpl.
  - split; constructor.
  - destruct x as [q| | |]; try discriminate.
    split; intros Hall; inversion Hall as [|? ? Hq Hrest]; subst;
      cbn [feq square fsub fopp fadd fmul] in Hq; constructor;
      try (now apply IH); cbn [feq square fsub fopp fadd fmul].
    + apply (proj1 (Qsquare_zero _)) in Hq. lra.
    + apply (proj2 (Qsquare_zero _)). lra.
Qed.

(** The variance of finite values around a finite mean is finite and
    [>= 0]; it is zero exactly when every value is the mean. *)
Lemma variance_of_nonneg (m : Q) (x : float) (xs : list float) :
  Forall (fun x => is_finite x = true) (x :: xs) ->
  exists v : Q,
    variance_of (Fin m) (x :: xs) = Some (Fin v) /\ 0 <= v /\
    (v == 0 <-> Forall (fun x => feq x (Fin m)) (x :: xs)).
Proof.
  intros H. unfold variance_of, py_sum, py_len.
  destruct (fold_fadd_nonneg _ 0 (deviations_nonneg m _ H))
    as (s & Hs & Hle & Hiff).
  rewrite Hs. unfold fdiv.
  pose proof (py_len_succ (List.length xs)) as E.
  pose proof (py_len_nonneg (List.length xs)) as Hn.
  cbn [List.length] in *.
  set (n := inject_Z (Z.of_nat (S (List.length xs)))) in *.
  assert (Hpos : 0 < n) by lra.
  assert (Hz : Qeq_bool n 0 = false) by (q_goal; lra).
  rewrite Hz. exists (s / n). split; [reflexivity|].
  assert (Es : s == (s / n) * n) by (field; lra).
  split; [nra|].
  rewrite <- (deviations_zero m _ H), <- Hiff.
  split; intros E0; nra.
Qed.

(** The smallest and the largest of finite values are finite and enclose
    every value. *)
Lemma min_max_enclose (x : float) (xs : list float) :
  Forall (fun x => is_finite x = true) (x :: xs) ->
  exists a b : Q,
    py_min_list x xs = Fin a /\ py_max_list x xs = Fin b /\
    Forall (in_range a b) (x :: xs).
Proof.
  intros H.
  destruct (py_min_list_minimum x xs) as (Hin & _ & Hmin).
  destruct (py_max_list_maximum x xs) as (Hin' & _ & Hmax).
  assert (Hnan : Forall (fun x => is_nan x = false) (x :: xs)).
  { eapply Forall_impl; [|exact H]. intros [| | |]; simpl; congruence. }
  specialize (Hmin Hnan). specialize (Hmax Hnan).
  rewrite Forall_forall in H.
  pose proof (H _ Hin) as Fa. pose proof (H _ Hin') as Fb.
  destruct (py_min_list x xs) as [a| | |]; try discriminate.
  destruct (py_max_list x xs) as [b| | |]; try discriminate.
  exists a, b. split; [reflexivity|]. split; [reflexivity|].
  apply Forall_forall. intros y Hy.
  pose proof (H _ Hy) as Fy. pose proof (Hmin _ Hy) as Hlo.
  pose proof (Hmax _ Hy) as Hhi. unfold fgeb in Hhi.
  destruct y as [q| | |]; try discriminate. simpl in *. q_props. lra.
Qed.

Lemma in_range_weaken (lo hi lo' hi' : Q) (x : float) :
  lo' <= lo -> hi <= hi' -> in_range lo hi x -> in_range lo' hi' x.
Proof. destruct x; simpl; try tauto. lra. Qed.

Lemma in_range_finite (lo hi : Q) (x : float) :
  in_range lo hi x -> is_finite x = true.
Proof. destruct x; simpl; tauto. Qed.





(** The score of a repetition whose weights are numbers [>= 0]. *)
Lemma run_repetition_in_range (fetch : fetcher)
    (rootless_name rootful_name : string)
    (items : list (string * Config.metric)) (t : ThresholdSet) (i now : Z)
    (r : RepetitionResult) :
  Forall (fun item => nonneg (weight_of (snd item))) items ->
  run_repetition fetch rootless_name rootful_name items t i now = Some r ->
  in_range 0 100 (weighted_score r).
Proof.
  intros Hw. unfold run_repetition.
  destruct (loop fetch rootless_name rootful_name loop_init items) as [st|] eqn:Hl;
    [|discriminate]. cbn [bind].
  assert (Hinit : sums_in_range loop_init).
  { exists 0, 0. simpl. repeat split; lra. }
  destruct (aggregate_in_range st (loop_in_range _ _ _ _ _ _ Hw Hinit Hl))
    as (q & Hq & Hr).
  rewrite Hq. cbn [bind]. intros H. inversion H; subst r. simpl. exact Hr.
Qed.


Lemma metrics_example_nonneg :
  Forall (fun item => nonneg (weight_of (snd item))) metrics_example.
Proof. repeat constructor; simpl; lra. Qed.

